(** * gdown: the command-line entry point ([gdown/__main__.py])

    A shallow embedding of [file_size] and [main], with the fragment of
    Python's [re] module and of binary64 arithmetic that they rely on. *)

From Stdlib Require Import ZArith List Bool Ascii String Lia.
From Stdlib Require Import Floats.SpecFloat.
Import ListNotations.

Local Open Scope string_scope.
Local Open Scope Z_scope.

(* ================================================================== *)
(** ** Strings

    A [str] is taken as a sequence of 8-bit characters; the patterns
    below only tell ASCII characters apart. *)

Module Str.

(** [s.startswith(p)], returning what follows the prefix. *)
Fixpoint strip_prefix (p s : string) : option string :=
  match p, s with
  | EmptyString, _ => Some s
  | String a p', String b s' =>
      if Ascii.eqb a b then strip_prefix p' s' else None
  | String _ _, EmptyString => None
  end.

Definition startswith (s p : string) : bool :=
  match strip_prefix p s with Some _ => true | None => false end.

(** [s[:n]] *)
Fixpoint take (n : nat) (s : string) : string :=
  match n, s with
  | S n', String c s' => String c (take n' s')
  | _, _ => EmptyString
  end.

(** [sep.join(parts)] *)
Definition join (sep : string) (parts : list string) : string :=
  String.concat sep parts.

Definition newline : string := String (ascii_of_nat 10) EmptyString.
Definition tab : string := String (ascii_of_nat 9) EmptyString.

End Str.

(* ================================================================== *)
(** ** The fragment of [re] used by the command line

    Python's matcher is a backtracking one: alternatives are tried from
    left to right, repetitions are greedy, and the first way of matching
    that succeeds is the match.  [run] lists every way a pattern can
    match at the current position, in that order of preference. *)

Module PyRe.

Inductive charset :=
| One (c : ascii)               (* a literal character *)
| Range (lo hi : ascii)         (* [lo-hi] *)
| Dot.                          (* . : anything but a newline *)

Inductive regex :=
| Bol                           (* ^ *)
| Chr (cs : charset)
| Lit (s : string)              (* a run of literal characters *)
| Cat (r1 r2 : regex)
| Alt (r1 r2 : regex)           (* r1|r2 *)
| Opt (r : regex)               (* r? *)
| Star (cs : charset)           (* cs* *)
| Plus (cs : charset)           (* cs+ *)
| Group (r : regex).            (* (r) *)

Definition in_charset (cs : charset) (c : ascii) : bool :=
  match cs with
  | One a => Ascii.eqb a c
  | Range lo hi =>
      (nat_of_ascii lo <=? nat_of_ascii c)%nat
      && (nat_of_ascii c <=? nat_of_ascii hi)%nat
  | Dot => negb (Ascii.eqb c (ascii_of_nat 10))
  end.

(** The state of the matcher: how many characters are consumed, what
    is left of the subject, and the groups closed so far. *)
Record mstate := MState {
  pos  : nat;
  rest : string;
  caps : list string
}.

Definition advance (n : nat) (s' : string) (st : mstate) : mstate :=
  MState (pos st + n) s' (caps st).

(** Greedy repetition of a character set: the longest run first, then
    each shorter one, down to the empty run. *)
Fixpoint star (cs : charset) (p : nat) (s : string) (g : list string)
  : list mstate :=
  match s with
  | String c s' =>
      if in_charset cs c
      then star cs (S p) s' g ++ [MState p s g]
      else [MState p s g]
  | EmptyString => [MState p s g]
  end.

Fixpoint run (r : regex) (st : mstate) : list mstate :=
  match r with
  | Bol => if (pos st =? 0)%nat then [st] else []
  | Chr cs =>
      match rest st with
      | String c s' => if in_charset cs c then [advance 1 s' st] else []
      | EmptyString => []
      end
  | Lit l =>
      match Str.strip_prefix l (rest st) with
      | Some s' => [advance (String.length l) s' st]
      | None => []
      end
  | Cat r1 r2 => flat_map (run r2) (run r1 st)
  | Alt r1 r2 => run r1 st ++ run r2 st
  | Opt r1 => run r1 st ++ [st]
  | Star cs => star cs (pos st) (rest st) (caps st)
  | Plus cs =>
      match rest st with
      | String c s' =>
          if in_charset cs c then star cs (S (pos st)) s' (caps st) else []
      | EmptyString => []
      end
  | Group r1 =>
      map (fun st' =>
             MState (pos st') (rest st')
                    (caps st' ++ [Str.take (pos st' - pos st) (rest st)]))
          (run r1 st)
  end.

(** [re.match(pattern, s)]: match at the beginning of [s] (not
    necessarily up to its end); [None] when there is no match, else
    the match object, of which only [groups()] is kept. *)
Definition re_match (pattern : regex) (s : string) : option (list string) :=
  match run pattern (MState 0 s []) with
  | st :: _ => Some (caps st)
  | [] => None
  end.

End PyRe.

(* ================================================================== *)
(** ** Python floats (IEEE 754 binary64) *)

Module PyFloat.

Definition prec : Z := 53.
Definition emax : Z := 1024.

Definition float := spec_float.

(** The float nearest to an integer (ties to even; infinity beyond the
    largest finite float). *)
Definition of_Z (n : Z) : float := binary_normalize prec emax n 0 false.

(** [x * y] on floats. *)
Definition mul (x y : float) : float := SFmul prec emax x y.

(** [x * n] for an [int] n: the integer is converted first. *)
Definition mul_int (x : float) (n : Z) : float := mul x (of_Z n).

Definition digit_value (c : ascii) : option Z :=
  let n := nat_of_ascii c in
  if ((48 <=? n) && (n <=? 57))%nat then Some (Z.of_nat n - 48) else None.

(** The integer written by a string of decimal digits, most
    significant first; [acc] is the value of the digits already read. *)
Fixpoint digits_value (acc : Z) (s : string) : option Z :=
  match s with
  | EmptyString => Some acc
  | String c s' =>
      match digit_value c with
      | Some d => digits_value (10 * acc + d) s'
      | None => None
      end
  end.

(** [float(s)] for a non-empty string of decimal digits: the float
    nearest to the number written.  Every other string is [None] here
    ([float] raises [ValueError] on some and reads others, signs or
    exponents say); [file_size] only passes what [[0-9]+] captured. *)
Definition of_digits (s : string) : option float :=
  match s with
  | EmptyString => None
  | _ => option_map of_Z (digits_value 0 s)
  end.

(** The exact value of a float, when it is an integer: what [x == n]
    compares with an [int] n. *)
Definition int_value (x : float) : option Z :=
  match x with
  | S754_zero _ => Some 0
  | S754_finite s m e =>
      let v := if s then Z.neg m else Z.pos m in
      if 0 <=? e then Some (v * 2 ^ e)
      else if v mod 2 ^ (- e) =? 0 then Some (v / 2 ^ (- e))
      else None
  | _ => None
  end.

End PyFloat.

(* ================================================================== *)
(** ** Exceptions

    An exception object is an instance of a class and has a text
    ([str(e)]); [except C] takes it when its class has [C] among its
    ancestors. *)

Inductive pyclass :=
| BaseException
| KeyboardInterrupt
| SystemExit
| Exception
| TypeError
| ValueError
| OSError
| RequestException                  (* requests.exceptions *)
| ConnectionError                   (* requests.exceptions *)
| ProxyError                        (* requests.exceptions *)
| FileURLRetrievalError             (* gdown.exceptions *)
| FolderContentsMaximumLimitError   (* gdown.exceptions *)
| OtherException (qualname : string).   (* any other subclass of Exception *)

Definition pyclass_eq_dec (a b : pyclass) : {a = b} + {a <> b}.
Proof. decide equality. apply string_dec. Defined.

(** The classes of the standard library and of [requests], as those
    libraries declare them. *)
Definition library_bases (c : pyclass) : list pyclass :=
  match c with
  | BaseException => []
  | KeyboardInterrupt | SystemExit => [BaseException]
  | Exception => [BaseException]
  | TypeError | ValueError | OSError => [Exception; BaseException]
  | RequestException => [OSError; Exception; BaseException]
  | ConnectionError => [RequestException; OSError; Exception; BaseException]
  | ProxyError =>
      [ConnectionError; RequestException; OSError; Exception; BaseException]
  | OtherException _ => [Exception; BaseException]
  | _ => []
  end.

(** Modelled from the spec: the declarations of [gdown/exceptions.py],
    which [__main__.py] imports and which is not embedded here.  The
    spec lists [FileURLRetrievalError] and [FolderContentsMaximumLimitError]
    as two separate kinds of failure, neither a case of the other nor of
    [ProxyError]: each is a class of its own under [Exception]. *)
Definition gdown_bases (c : pyclass) : list pyclass :=
  match c with
  | FileURLRetrievalError | FolderContentsMaximumLimitError =>
      [Exception; BaseException]
  | _ => []
  end.

(** [cls.__mro__], without [object]. *)
Definition mro (c : pyclass) : list pyclass :=
  c :: library_bases c ++ gdown_bases c.

Record exn := Exn {
  exn_class : pyclass;
  exn_str   : string                (* str(e) *)
}.

Definition isinstance (e : exn) (c : pyclass) : bool :=
  if in_dec pyclass_eq_dec c (mro (exn_class e)) then true else false.

(* ================================================================== *)
(** ** [file_size] *)

(** What a call does: it returns a value or raises. *)
Inductive result (A : Type) :=
| Return (v : A)
| Raise (e : exn).
Arguments Return {A} v.
Arguments Raise {A} e.

Import PyRe.

(** r"([0-9]+)(GB|MB|KB|B)" *)
Definition size_pattern : regex :=
  Cat (Group (Plus (Range "0" "9")))
      (Group (Alt (Lit "GB") (Alt (Lit "MB") (Alt (Lit "KB") (Lit "B"))))).

(** [file_size(argv)]; [argv] is [None] or a string, and the function
    falls off its end (returning [None]) when [argv] is [None].
    [size, unit = m.groups()] and [float(size)] cannot fail on what the
    pattern captures; their error cases are kept so that this is shown
    rather than assumed. *)
Definition file_size (argv : option string) : result (option PyFloat.float) :=
  match argv with
  | Some argv =>
      match re_match size_pattern argv with
      | None => Raise (Exn TypeError "")
      | Some [size; unit] =>
          match PyFloat.of_digits size with
          | None => Raise (Exn ValueError "could not convert string to float")
          | Some size =>
              let size :=
                if (unit =? "KB")%string then PyFloat.mul_int size 1024
                else if (unit =? "MB")%string then PyFloat.mul_int size (1024 ^ 2)
                else if (unit =? "GB")%string then PyFloat.mul_int size (1024 ^ 3)
                else if (unit =? "B")%string then size
                else size in
              Return (Some size)
          end
      | Some _ => Raise (Exn ValueError "wrong number of values to unpack")
      end
  | None => Return None
  end.

(* ================================================================== *)
(** ** [main] *)

(** The namespace that [parser.parse_args()] returns. *)
Module Namespace.
Record t := Make {
  url_or_id : string;
  output : option string;
  quiet : bool;
  fuzzy : bool;
  id : bool;
  proxy : option string;
  speed : option PyFloat.float;
  no_cookies : bool;
  no_check_certificate : bool;
  continue_ : bool;
  folder : bool;
  remaining_ok : bool;
  format : option string;
  user_agent : option string
}.
End Namespace.

(** Where the bytes go: a path, or the stream [sys.stdout.buffer]. *)
Inductive destination :=
| Path (p : string)
| StdoutBuffer.

(** The keyword arguments of the two calls into the download layer. *)
Module DownloadFolder.
Record kwargs := Make {
  url : option string;
  id : option string;
  output : option destination;
  quiet : bool;
  proxy : option string;
  speed : option PyFloat.float;
  use_cookies : bool;
  verify : bool;
  remaining_ok : bool;
  user_agent : option string;
  resume : bool
}.
End DownloadFolder.

Module Download.
Record kwargs := Make {
  url : option string;
  output : option destination;
  quiet : bool;
  proxy : option string;
  speed : option PyFloat.float;
  use_cookies : bool;
  verify : bool;
  id : option string;
  fuzzy : bool;
  resume : bool;
  format : option string;
  user_agent : option string
}.
End Download.

Inductive call :=
| download_folder (kw : DownloadFolder.kwargs)
| download (kw : Download.kwargs).

(** How a call into the download layer ends (its value is not used). *)
Inductive outcome :=
| Returned
| Raised (e : exn).

(** What [main] does that can be seen from outside, in order. *)
Inductive event :=
| Warn (category : string) (message : string)   (* warnings.warn *)
| Call (c : call)
| Stderr (text : string).                       (* print(..., file=sys.stderr) *)

(** How [main] ends: it returns, [sys.exit(code)] ends the process, or
    an exception leaves it. *)
Inductive termination :=
| Returns
| Exit (code : Z)
| Uncaught (e : exn).

(** [print(x, file=sys.stderr)] *)
Definition print_stderr (x : string) : event := Stderr (x ++ Str.newline).

(** "^https?://.*" *)
Definition url_pattern : regex :=
  Cat Bol
    (Cat (Lit "http")
       (Cat (Opt (Chr (One "s")))
          (Cat (Lit "://") (Star Dot)))).

Definition id_deprecation : string :=
  "Option `--id` was deprecated in version 4.3.1 "
  ++ "and will be removed in 5.0. You don't need to "
  ++ "pass it anymore to use a file ID.".

(** Lines 151-152: [-] stands for the standard output. *)
Definition output_of (args : Namespace.t) : option destination :=
  match Namespace.output args with
  | Some o => if (o =? "-")%string then Some StdoutBuffer else Some (Path o)
  | None => None
  end.

(** Lines 154-169: the warning issued, [url] and [id]. *)
Definition url_and_id (args : Namespace.t)
  : list event * option string * option string :=
  if Namespace.id args then
    ([Warn "FutureWarning" id_deprecation], None, Some (Namespace.url_or_id args))
  else
    match re_match url_pattern (Namespace.url_or_id args) with
    | Some _ => ([], Some (Namespace.url_or_id args), None)
    | None => ([], None, Some (Namespace.url_or_id args))
    end.

(** Lines 172-200: the call made inside [try]. *)
Definition the_call (args : Namespace.t) : call :=
  let '(_, url, id) := url_and_id args in
  if Namespace.folder args then
    download_folder
      {| DownloadFolder.url := url;
         DownloadFolder.id := id;
         DownloadFolder.output := output_of args;
         DownloadFolder.quiet := Namespace.quiet args;
         DownloadFolder.proxy := Namespace.proxy args;
         DownloadFolder.speed := Namespace.speed args;
         DownloadFolder.use_cookies := negb (Namespace.no_cookies args);
         DownloadFolder.verify := negb (Namespace.no_check_certificate args);
         DownloadFolder.remaining_ok := Namespace.remaining_ok args;
         DownloadFolder.user_agent := Namespace.user_agent args;
         DownloadFolder.resume := Namespace.continue_ args |}
  else
    download
      {| Download.url := url;
         Download.output := output_of args;
         Download.quiet := Namespace.quiet args;
         Download.proxy := Namespace.proxy args;
         Download.speed := Namespace.speed args;
         Download.use_cookies := negb (Namespace.no_cookies args);
         Download.verify := negb (Namespace.no_check_certificate args);
         Download.id := id;
         Download.fuzzy := Namespace.fuzzy args;
         Download.resume := Namespace.continue_ args;
         Download.format := Namespace.format args;
         Download.user_agent := Namespace.user_agent args |}.

Section Main.

(** [textwrap.wrap(text)] of the standard library and
    [indent(text, prefix)] of [gdown/_indent.py]: [main] only passes
    texts through them, and they are left open. *)
Variable wrap : string -> list string.
Variable indent : string -> string -> string.

(** The download layer: how each call ends. *)
Variable run_call : call -> outcome.

(** [indent("\n".join(textwrap.wrap(str(e))), prefix="\t")] *)
Definition error_msg (e : exn) : string :=
  indent (Str.join Str.newline (wrap (exn_str e))) Str.tab.

Definition folder_message (e : exn) : string :=
  "Failed to retrieve folder contents:" ++ Str.newline ++ Str.newline
  ++ error_msg e ++ Str.newline ++ Str.newline
  ++ "You can use `--remaining-ok` option to ignore this error.".

Definition proxy_message (e : exn) : string :=
  "Failed to use proxy:" ++ Str.newline ++ Str.newline
  ++ error_msg e ++ Str.newline ++ Str.newline
  ++ "Please check your proxy settings.".

Definition generic_message (e : exn) : string :=
  "Error:" ++ Str.newline ++ Str.newline
  ++ error_msg e ++ Str.newline ++ Str.newline
  ++ "To report issues, please visit https://github.com/wkentaro/gdown/issues.".

(** Lines 201-226: the [except] clauses, tried in order. *)
Definition handle (e : exn) : list event * termination :=
  if isinstance e FileURLRetrievalError then
    ([print_stderr (exn_str e)], Exit 1)
  else if isinstance e FolderContentsMaximumLimitError then
    ([print_stderr (folder_message e)], Exit 1)
  else if isinstance e ProxyError then
    ([print_stderr (proxy_message e)], Exit 1)
  else if isinstance e Exception then
    ([print_stderr (generic_message e)], Exit 1)
  else
    ([], Uncaught e).

(** [main()], after [args = parser.parse_args()]. *)
Definition main (args : Namespace.t) : list event * termination :=
  let '(warned, _, _) := url_and_id args in
  let c := the_call args in
  match run_call c with
  | Returned => ((warned ++ [Call c])%list, Returns)
  | Raised e =>
      let '(printed, t) := handle e in
      ((warned ++ [Call c] ++ printed)%list, t)
  end.

End Main.

(** The process exit code that [main] decides: 0 when it returns, the
    argument of [sys.exit]; none when an exception leaves it (the
    interpreter then decides). *)
Definition exit_code (t : termination) : option Z :=
  match t with
  | Returns => Some 0
  | Exit code => Some code
  | Uncaught _ => None
  end.

(** What [main] prints to the standard error, from first to last.  (A
    warning is not printed by [main]; the [warnings] module reports it
    as its filters say.) *)
Definition stderr_of (evs : list event) : string :=
  String.concat "" (flat_map (fun ev => match ev with Stderr t => [t] | _ => [] end) evs).

Definition calls_of (evs : list event) : list call :=
  flat_map (fun ev => match ev with Call c => [c] | _ => [] end) evs.

(** The multiplier that the interface description gives each unit
    (binary multiples). *)
Definition unit_multiplier (unit : string) : option Z :=
  if (unit =? "B")%string then Some 1
  else if (unit =? "KB")%string then Some 1024
  else if (unit =? "MB")%string then Some (1024 ^ 2)
  else if (unit =? "GB")%string then Some (1024 ^ 3)
  else None.

Definition call_url (c : call) : option string :=
  match c with
  | download_folder kw => DownloadFolder.url kw
  | download kw => Download.url kw
  end.

Definition call_id (c : call) : option string :=
  match c with
  | download_folder kw => DownloadFolder.id kw
  | download kw => Download.id kw
  end.

Definition call_output (c : call) : option destination :=
  match c with
  | download_folder kw => DownloadFolder.output kw
  | download kw => Download.output kw
  end.

(** Two simple text helpers to run [main] on examples: what
    [textwrap.wrap] and [indent] give for a text that is one short line
    (words separated by single blanks, nothing to fold). *)
Definition wrap_short (text : string) : list string :=
  match text with
  | EmptyString => []
  | _ => [text]
  end.

Definition indent_line (text prefix : string) : string :=
  match text with
  | EmptyString => EmptyString
  | _ => prefix ++ text
  end.

Definition sample_args : Namespace.t :=
  {| Namespace.url_or_id := "https://drive.google.com/drive/folders/abc123";
     Namespace.output := Some "-";
     Namespace.quiet := false;
     Namespace.fuzzy := false;
     Namespace.id := false;
     Namespace.proxy := None;
     Namespace.speed := None;
     Namespace.no_cookies := false;
     Namespace.no_check_certificate := false;
     Namespace.continue_ := false;
     Namespace.folder := true;
     Namespace.remaining_ok := true;
     Namespace.format := None;
     Namespace.user_agent := None |}.

(** A download layer that fails every call with [e]. *)
Definition failing (e : exn) : call -> outcome := fun _ => Raised e.

(** The three kinds of failure get three different exit codes. *)
Definition distinct_exit_codes
    (wrap : string -> list string) (indent : string -> string -> string)
    (args : Namespace.t) (retrieval limit proxy : exn) : Prop :=
  let code e := exit_code (snd (main wrap indent (failing e) args)) in
  code retrieval <> code limit
  /\ code retrieval <> code proxy
  /\ code limit <> code proxy.

(* ================================================================== *)
(** ** [_ShowVersionAction]

    [os.path.dirname] as [posixpath] has it: the part of a path up to
    its last slash, without the slashes that end it unless it is
    slashes only. *)

Module PosixPath.

Definition is_sep (c : ascii) : bool := Ascii.eqb c "/".

(** [p.rfind("/") + 1]: 0 when there is no slash. *)
Fixpoint rfind_sep_succ (p : string) : nat :=
  match p with
  | EmptyString => 0%nat
  | String c p' =>
      match rfind_sep_succ p' with
      | O => if is_sep c then 1%nat else 0%nat
      | S i => S (S i)
      end
  end.

(** [head == "/" * len(head)] *)
Fixpoint all_sep (head : string) : bool :=
  match head with
  | EmptyString => true
  | String c head' => is_sep c && all_sep head'
  end.

(** [head.rstrip("/")] *)
Fixpoint rstrip_sep (head : string) : string :=
  match head with
  | EmptyString => EmptyString
  | String c head' =>
      match rstrip_sep head' with
      | EmptyString => if is_sep c then EmptyString else String c EmptyString
      | r => String c r
      end
  end.

Definition dirname (p : string) : string :=
  let i := rfind_sep_succ p in
  let head := Str.take i p in
  match head with
  | EmptyString => head
  | _ => if negb (all_sep head) then rstrip_sep head else head
  end.

End PosixPath.

(** [_ShowVersionAction.__call__]: the line written to the standard
    output, then [parser.exit()], which ends the process with status 0.
    [version] is [gdown.__version__] and [file] is [__file__]. *)
Definition show_version (version file : string) : string * termination :=
  ("gdown " ++ version ++ " at "
     ++ PosixPath.dirname (PosixPath.dirname file) ++ Str.newline,
   Exit 0).

(* ================================================================== *)
(** ** Vocabulary of the statements *)

(** Every character of [s] is in the set. *)
Fixpoint all_in (cs : charset) (s : string) : bool :=
  match s with
  | EmptyString => true
  | String c s' => in_charset cs c && all_in cs s'
  end.

(** [s] begins with a character of the set. *)
Definition head_in (cs : charset) (s : string) : bool :=
  match s with
  | EmptyString => false
  | String c _ => in_charset cs c
  end.

Definition is_unit (u : string) : Prop :=
  u = "GB" \/ u = "MB" \/ u = "KB" \/ u = "B".

(** Whether a pattern matches at all from a state. *)
Definition accepts (r : regex) (st : mstate) : bool :=
  match run r st with [] => false | _ :: _ => true end.

(** The float [2^k], for [k] up to 1023. *)
Definition pow2_float (k : positive) : PyFloat.float :=
  S754_finite false (Pos.iter xO 1%positive 52) (Z.pos k - 52).

(** The warnings that [main] issues before the call. *)
Definition warned (args : Namespace.t) : list event :=
  fst (fst (url_and_id args)).

(** Zero, a positive number or plus infinity: not a NaN, nothing
    negative. *)
Definition nonneg_float (x : PyFloat.float) : bool :=
  match x with
  | S754_zero false | S754_finite false _ _ | S754_infinity false => true
  | _ => false
  end.

(** [s] begins with one of the four units. *)
Definition starts_with_unit (s : string) : bool :=
  Str.startswith s "GB" || Str.startswith s "MB"
  || Str.startswith s "KB" || Str.startswith s "B".

(** The namespace with other values of [--fuzzy] and [--format]. *)
Definition with_fuzzy_format (fuzzy : bool) (format : option string)
    (args : Namespace.t) : Namespace.t :=
  {| Namespace.url_or_id := Namespace.url_or_id args;
     Namespace.output := Namespace.output args;
     Namespace.quiet := Namespace.quiet args;
     Namespace.fuzzy := fuzzy;
     Namespace.id := Namespace.id args;
     Namespace.proxy := Namespace.proxy args;
     Namespace.speed := Namespace.speed args;
     Namespace.no_cookies := Namespace.no_cookies args;
     Namespace.no_check_certificate := Namespace.no_check_certificate args;
     Namespace.continue_ := Namespace.continue_ args;
     Namespace.folder := Namespace.folder args;
     Namespace.remaining_ok := Namespace.remaining_ok args;
     Namespace.format := format;
     Namespace.user_agent := Namespace.user_agent args |}.

(** The namespace with another value of [--remaining-ok]. *)
Definition with_remaining_ok (remaining_ok : bool) (args : Namespace.t)
  : Namespace.t :=
  {| Namespace.url_or_id := Namespace.url_or_id args;
     Namespace.output := Namespace.output args;
     Namespace.quiet := Namespace.quiet args;
     Namespace.fuzzy := Namespace.fuzzy args;
     Namespace.id := Namespace.id args;
     Namespace.proxy := Namespace.proxy args;
     Namespace.speed := Namespace.speed args;
     Namespace.no_cookies := Namespace.no_cookies args;
     Namespace.no_check_certificate := Namespace.no_check_certificate args;
     Namespace.continue_ := Namespace.continue_ args;
     Namespace.folder := Namespace.folder args;
     Namespace.remaining_ok := remaining_ok;
     Namespace.format := Namespace.format args;
     Namespace.user_agent := Namespace.user_agent args |}.

(** A second command line: one file by its id, quietly. *)
Definition sample_file_args : Namespace.t :=
  {| Namespace.url_or_id := "abc123";
     Namespace.output := Some "report.pdf";
     Namespace.quiet := true;
     Namespace.fuzzy := false;
     Namespace.id := true;
     Namespace.proxy := None;
     Namespace.speed := None;
     Namespace.no_cookies := false;
     Namespace.no_check_certificate := false;
     Namespace.continue_ := true;
     Namespace.folder := false;
     Namespace.remaining_ok := false;
     Namespace.format := None;
     Namespace.user_agent := None |}.

(** [n] zeros. *)
Fixpoint zeros (n : nat) : string :=
  match n with
  | O => EmptyString
  | S n' => String "0" (zeros n')
  end.

(** A path that does not end with a slash, and a name without one. *)
Fixpoint ends_with_sep (p : string) : bool :=
  match p with
  | EmptyString => false
  | String c EmptyString => PosixPath.is_sep c
  | String _ p' => ends_with_sep p'
  end.

Fixpoint no_sep (name : string) : bool :=
  match name with
  | EmptyString => true
  | String c name' => negb (PosixPath.is_sep c) && no_sep name'
  end.


(* ================================================================== *)
(** ** Matching: the two patterns *)

Section Matching.

Lemma star_nonempty cs s p g : star cs p s g <> [].
Proof.
  destruct s as [|c s]; simpl; [discriminate|].
  destruct (in_charset cs c); [|discriminate].
  intros H. apply app_eq_nil in H. destruct H; discriminate.
Qed.

(** A greedy repetition first takes the whole run. *)
Lemma star_greedy cs ds :
  all_in cs ds = true ->
  forall r p g, head_in cs r = false ->
  exists tl, star cs p (ds ++ r) g = MState (p + String.length ds) r g :: tl.
Proof.
  induction ds as [|c ds IH]; cbn [all_in append String.length star];
    intros Hall r p g Hr.
  - rewrite Nat.add_0_r. destruct r as [|c r]; cbn [star head_in] in *.
    + now exists [].
    + rewrite Hr. now exists [].
  - apply andb_true_iff in Hall. destruct Hall as [Hc Hds].
    rewrite Hc. destruct (IH Hds r (S p) g Hr) as [tl Htl].
    rewrite Htl. simpl. rewrite Nat.add_succ_r. eauto.
Qed.

Lemma append_assoc (a b c : string) : (a ++ b) ++ c = a ++ b ++ c.
Proof. induction a; cbn; congruence. Qed.

Lemma take_app s r : Str.take (String.length s) (s ++ r) = s.
Proof. induction s; simpl; [now destruct r | now f_equal]. Qed.

Lemma strip_prefix_app a b s :
  Str.strip_prefix (a ++ b) s =
  match Str.strip_prefix a s with
  | Some s' => Str.strip_prefix b s'
  | None => None
  end.
Proof.
  revert s. induction a as [|c a IH]; simpl; intros s; [reflexivity|].
  destruct s as [|d s]; [reflexivity|].
  destruct (Ascii.eqb c d); auto.
Qed.

(** On digits, a unit and anything after, the pattern captures the
    digits and the unit. *)
Lemma size_pattern_groups ds u tail :
  ds <> "" -> all_in (Range "0" "9") ds = true -> is_unit u ->
  re_match size_pattern (ds ++ u ++ tail) = Some [ds; u].
Proof.
  intros Hne Hall Hu.
  destruct ds as [|c ds]; [congruence|]. cbn [all_in] in Hall.
  apply andb_true_iff in Hall. destruct Hall as [Hc Hds].
  assert (Hhd : head_in (Range "0" "9") (u ++ tail) = false)
    by (destruct Hu as [-> | [-> | [-> | ->]]]; reflexivity).
  destruct (star_greedy _ ds Hds (u ++ tail) 1%nat [] Hhd) as [tl Htl].
  unfold re_match, size_pattern.
  cbn [run rest pos caps append]. rewrite Hc, Htl.
  cbn [map flat_map pos rest caps app].
  rewrite Nat.sub_0_r.
  change (1 + String.length ds)%nat with (String.length (String c ds)).
  change (String c (ds ++ u ++ tail)) with (String c ds ++ u ++ tail).
  rewrite take_app.
  remember (String c ds) as digits eqn:Hd. clear Hd Hne Htl.
  destruct Hu as [-> | [-> | [-> | ->]]]; cbn -[Nat.sub Str.take];
    match goal with
    | |- context [(?n + ?k - ?n)%nat] =>
        replace (n + k - n)%nat with k by lia
    end; reflexivity.
Qed.

(** The URL pattern matches exactly what begins with "http://" or
    "https://". *)
Lemma strip_prefix_Some p : forall s t,
  Str.strip_prefix p s = Some t -> s = p ++ t.
Proof.
  induction p as [|a p IH]; intros s t; cbn [Str.strip_prefix append].
  - now intros [= ->].
  - destruct s as [|b s]; [discriminate|].
    destruct (Ascii.eqb_spec a b) as [->|]; [|discriminate].
    intros H. now rewrite (IH _ _ H).
Qed.

(** Every way a repetition can match takes a run of the set's
    characters off the subject. *)
Lemma star_takes_run cs s : forall p g st,
  In st (star cs p s g) ->
  exists a, s = a ++ rest st /\ all_in cs a = true.
Proof.
  induction s as [|c s IH]; intros p g st; cbn [star].
  - intros [<-|[]]. now exists "".
  - destruct (in_charset cs c) eqn:Hc.
    + intros H. apply in_app_or in H. destruct H as [H|[<-|[]]].
      * destruct (IH _ _ _ H) as (a & -> & Ha).
        exists (String c a). cbn [all_in append]. now rewrite Hc, Ha.
      * now exists "".
    + intros [<-|[]]. now exists "".
Qed.

(** The pattern matches nothing but digits, a unit and what follows. *)
Lemma size_pattern_matches s groups :
  re_match size_pattern s = Some groups ->
  exists ds u tail,
    s = ds ++ u ++ tail /\ ds <> ""
    /\ all_in (Range "0" "9") ds = true /\ is_unit u.
Proof.
  unfold re_match, size_pattern.
  destruct (run _ _) as [|st l] eqn:R; [discriminate|]. intros _.
  assert (Hin : In st (run (Cat (Group (Plus (Range "0" "9")))
                         (Group (Alt (Lit "GB") (Alt (Lit "MB")
                            (Alt (Lit "KB") (Lit "B"))))))
                         (MState 0 s [])))
    by (rewrite R; now left).
  clear R. cbn [run] in Hin.
  apply in_flat_map in Hin. destruct Hin as (st1 & H1 & H2).
  apply in_map_iff in H1. destruct H1 as (st0 & <- & H0).
  apply in_map_iff in H2. destruct H2 as (st2 & _ & H2).
  cbn [rest pos caps] in H0, H2.
  destruct s as [|c s]; [destruct H0|].
  destruct (in_charset (Range "0" "9") c) eqn:Hc; [|destruct H0].
  apply star_takes_run in H0. destruct H0 as (a & -> & Ha).
  assert (Hu : exists u tail, rest st0 = u ++ tail /\ is_unit u).
  { unfold is_unit.
    repeat (apply in_app_or in H2; destruct H2 as [H2|H2]);
      match type of H2 with
      | In _ (match Str.strip_prefix ?u ?r with _ => _ end) =>
          destruct (Str.strip_prefix u r) as [t|] eqn:E; [|destruct H2];
          apply strip_prefix_Some in E; exists u, t; auto 6
      end. }
  destruct Hu as (u & tail & -> & Hu).
  exists (String c a), u, tail. cbn [all_in append]. rewrite Hc, Ha.
  repeat split; [discriminate | assumption].
Qed.

Lemma re_match_accepts r s :
  match re_match r s with Some _ => true | None => false end
  = accepts r (MState 0 s []).
Proof. unfold re_match, accepts. now destruct (run r _). Qed.

Lemma accepts_cat r1 r2 st :
  accepts (Cat r1 r2) st = existsb (accepts r2) (run r1 st).
Proof.
  unfold accepts. cbn [run].
  induction (run r1 st) as [|x l IH]; cbn [flat_map existsb]; [reflexivity|].
  destruct (run r2 x); cbn [app orb]; [exact IH | reflexivity].
Qed.

Lemma accepts_lit_star l cs st :
  accepts (Cat (Lit l) (Star cs)) st =
  match Str.strip_prefix l (rest st) with Some _ => true | None => false end.
Proof.
  rewrite accepts_cat. cbn [run].
  destruct (Str.strip_prefix l (rest st)); cbn [existsb]; [|reflexivity].
  rewrite orb_false_r. unfold accepts. cbn [run].
  destruct (star cs _ _ _) eqn:H; [now apply star_nonempty in H | reflexivity].
Qed.

(** The URL pattern matches exactly what begins with "http://" or
    "https://". *)
Lemma url_pattern_startswith s :
  match re_match url_pattern s with Some _ => true | None => false end
  = Str.startswith s "http://" || Str.startswith s "https://".
Proof.
  rewrite re_match_accepts. unfold url_pattern, Str.startswith.
  change "http://" with ("http" ++ "://").
  change "https://" with ("http" ++ "s" ++ "://").
  rewrite !strip_prefix_app.
  rewrite accepts_cat.
  change (run Bol (MState 0 s [])) with [MState 0 s []].
  cbn [existsb]. rewrite orb_false_r, accepts_cat.
  change (run (Lit "http") (MState 0 s []))
    with (match Str.strip_prefix "http" s with
          | Some s' => [MState 4 s' []]
          | None => []
          end).
  destruct (Str.strip_prefix "http" s) as [s1|]; [|reflexivity].
  rewrite strip_prefix_app.
  cbn [existsb]. rewrite orb_false_r, accepts_cat.
  change (run (Opt (Chr (One "s"))) (MState 4 s1 []))
    with (run (Chr (One "s")) (MState 4 s1 []) ++ [MState 4 s1 []])%list.
  rewrite existsb_app. cbn [existsb]. rewrite orb_false_r.
  rewrite accepts_lit_star. cbn [rest]. rewrite orb_comm. f_equal.
  destruct s1 as [|c s1]; [reflexivity|].
  change (Str.strip_prefix "s" (String c s1))
    with (if Ascii.eqb "s" c then Some s1 else None).
  change (run (Chr (One "s")) (MState 4 (String c s1) []))
    with (if Ascii.eqb "s" c then [MState 5 s1 []] else []).
  destruct (Ascii.eqb "s" c); [|reflexivity].
  cbn [existsb]. rewrite orb_false_r. apply accepts_lit_star.
Qed.

End Matching.

(* ================================================================== *)
(** ** Binary64: integers below 2^53 and products by powers of two *)

Section Binary64.

Import PyFloat.

Lemma digits2_pos_size p : digits2_pos p = Pos.size p.
Proof. induction p; simpl; congruence. Qed.

(** A positive number of [d] binary digits lies in [2^(d-1), 2^d). *)
Lemma digits2_pos_bounds p :
  2 ^ (Z.pos (digits2_pos p) - 1) <= Z.pos p < 2 ^ Z.pos (digits2_pos p).
Proof.
  induction p as [p IH|p IH|]; cbn [digits2_pos].
  - rewrite Pos2Z.inj_succ.
    replace (Z.succ (Z.pos (digits2_pos p)) - 1) with (Z.succ (Z.pos (digits2_pos p) - 1)) by lia.
    rewrite !Z.pow_succ_r by lia. lia.
  - rewrite Pos2Z.inj_succ.
    replace (Z.succ (Z.pos (digits2_pos p)) - 1) with (Z.succ (Z.pos (digits2_pos p) - 1)) by lia.
    rewrite !Z.pow_succ_r by lia. lia.
  - simpl. lia.
Qed.

Lemma digits2_pos_le p k :
  0 <= k -> Z.pos p < 2 ^ k -> Z.pos (digits2_pos p) <= k.
Proof.
  intros Hk Hp. destruct (digits2_pos_bounds p) as [Hlo _].
  destruct (Z.le_gt_cases (Z.pos (digits2_pos p)) k) as [|Hgt]; [assumption|].
  assert (2 ^ k <= 2 ^ (Z.pos (digits2_pos p) - 1))
    by (apply Z.pow_le_mono_r; lia).
  lia.
Qed.

Lemma digits2_pos_iter p k :
  digits2_pos (Pos.iter xO p k) = (digits2_pos p + k)%positive.
Proof.
  induction k as [|k IH] using Pos.peano_ind.
  - cbn. now rewrite Pos.add_1_r.
  - rewrite Pos.iter_succ. cbn [digits2_pos]. rewrite IH. lia.
Qed.

Lemma Zpos_iter p k : Z.pos (Pos.iter xO p k) = Z.pos p * 2 ^ Z.pos k.
Proof.
  induction k as [|k IH] using Pos.peano_ind.
  - cbn. lia.
  - rewrite Pos.iter_succ, Pos2Z.inj_xO, IH, Pos2Z.inj_succ.
    rewrite Z.pow_succ_r by lia. lia.
Qed.

(** Shifting right as many times as there are trailing zero bits loses
    nothing. *)
Lemma iter_shr_1 p k :
  iter_pos shr_1 k (Build_shr_record (Z.pos (Pos.iter xO p k)) false false)
  = Build_shr_record (Z.pos p) false false.
Proof.
  assert (G : forall n : nat, forall q,
    Nat.iter n shr_1 (Build_shr_record (Z.pos (Nat.iter n xO q)) false false)
    = Build_shr_record (Z.pos q) false false).
  { induction n as [|n IH]; intros q; [reflexivity|].
    rewrite Nat.iter_succ_r. cbn [Nat.iter shr_1 orb]. 
    change (Nat.iter (S n) xO q) with (xO (Nat.iter n xO q)).
    cbn [shr_1 orb]. apply IH. }
  assert (E1 : forall A (f : A -> A) k x, iter_pos f k x = Nat.iter (Pos.to_nat k) f x).
  { clear. intros A f k. induction k as [k IH|k IH|]; intros x; cbn [iter_pos].
    - rewrite Pos2Nat.inj_xI. rewrite !IH.
      replace (S (2 * Pos.to_nat k))%nat with (Pos.to_nat k + (Pos.to_nat k + 1))%nat by lia.
      rewrite !Nat.iter_add. reflexivity.
    - rewrite Pos2Nat.inj_xO, !IH.
      replace (2 * Pos.to_nat k)%nat with (Pos.to_nat k + Pos.to_nat k)%nat by lia.
      now rewrite Nat.iter_add.
    - reflexivity. }
  rewrite E1, Pos2Nat.inj_iter. apply G.
Qed.

Lemma shr_fexp_canonical m e :
  Z.pos (digits2_pos m) = 53 -> -1074 <= e ->
  shr_fexp prec emax (Z.pos m) e loc_Exact
  = (Build_shr_record (Z.pos m) false false, e).
Proof.
  intros Hd He.
  unfold shr_fexp, fexp, emin, prec, emax. cbn [Zdigits2 shr_record_of_loc].
  rewrite Hd.
  replace (Z.max (53 + e - 53) (3 - 1024 - 53) - e) with 0 by lia.
  reflexivity.
Qed.

(** A mantissa of 53 bits with an exponent in range is already a
    float: rounding leaves it alone. *)
Lemma round_canonical m e :
  Z.pos (digits2_pos m) = 53 -> -1074 <= e <= 971 ->
  binary_round_aux prec emax false (Z.pos m) e loc_Exact
  = S754_finite false m e.
Proof.
  intros Hd He.
  unfold binary_round_aux. rewrite shr_fexp_canonical by lia.
  cbn [shr_m loc_of_shr_record round_nearest_even].
  rewrite shr_fexp_canonical by lia.
  cbn [shr_m]. unfold prec, emax.
  destruct (Z.leb_spec e (1024 - 53)); [reflexivity | lia].
Qed.

(** A product of a 53-bit mantissa by [2^k]: the bits shifted in are
    shifted out again, exactly. *)
Lemma round_shifted m k e :
  Z.pos (digits2_pos m) = 53 -> -1074 - Z.pos k <= e <= 971 - Z.pos k ->
  binary_round_aux prec emax false (Z.pos (Pos.iter xO m k)) e loc_Exact
  = S754_finite false m (e + Z.pos k).
Proof.
  intros Hd He.
  assert (Hshr : shr_fexp prec emax (Z.pos (Pos.iter xO m k)) e loc_Exact
                 = (Build_shr_record (Z.pos m) false false, e + Z.pos k)).
  { unfold shr_fexp, fexp, emin, prec, emax. cbn [Zdigits2 shr_record_of_loc].
    rewrite digits2_pos_iter, Pos2Z.inj_add, Hd.
    replace (Z.max (53 + Z.pos k + e - 53) (3 - 1024 - 53) - e)
      with (Z.pos k) by lia.
    cbn [shr]. now rewrite iter_shr_1. }
  unfold binary_round_aux. rewrite Hshr.
  cbn [shr_m loc_of_shr_record round_nearest_even].
  rewrite shr_fexp_canonical by lia.
  cbn [shr_m]. unfold prec, emax.
  destruct (Z.leb_spec (e + Z.pos k) (1024 - 53)); [reflexivity | lia].
Qed.

(** The float of a positive integer below [2^53]: its bits, shifted
    up to the 53-bit mantissa. *)
Lemma of_Z_small p :
  Z.pos p < 2 ^ 53 ->
  exists m e,
    of_Z (Z.pos p) = S754_finite false m e
    /\ Z.pos (digits2_pos m) = 53
    /\ -52 <= e <= 0
    /\ Z.pos m = Z.pos p * 2 ^ (- e).
Proof.
  intros Hp.
  assert (Hd : Z.pos (digits2_pos p) <= 53) by (apply digits2_pos_le; lia).
  unfold of_Z, binary_normalize, binary_round, fexp, emin, prec, emax.
  replace (Z.max (Z.pos (digits2_pos p) + 0 - 53) (3 - 1024 - 53))
    with (Z.pos (digits2_pos p) - 53) by lia.
  unfold shl_align.
  destruct (Z.pos (digits2_pos p) - 53 - 0) as [|d|d] eqn:Hsub; try lia.
  - exists p, 0. split; [|split; [|split]]; try lia.
    apply round_canonical; lia.
  - exists (Pos.iter xO p d), (Z.pos (digits2_pos p) - 53).
    assert (Hm : Z.pos (digits2_pos (Pos.iter xO p d)) = 53)
      by (rewrite digits2_pos_iter; lia).
    split; [|split; [|split]]; try lia.
    + apply round_canonical; [assumption | lia].
    + rewrite Zpos_iter. f_equal. f_equal. lia.
Qed.

Lemma of_Z_1024 : of_Z 1024 = pow2_float 10.
Proof. reflexivity. Qed.
Lemma of_Z_1024_2 : of_Z (1024 ^ 2) = pow2_float 20.
Proof. reflexivity. Qed.
Lemma of_Z_1024_3 : of_Z (1024 ^ 3) = pow2_float 30.
Proof. reflexivity. Qed.

(** Multiplying by a power of two adds to the exponent. *)
Lemma mul_pow2 m e k :
  Z.pos (digits2_pos m) = 53 -> -52 <= e <= 0 -> Z.pos k <= 900 ->
  mul (S754_finite false m e) (pow2_float k)
  = S754_finite false m (e + Z.pos k).
Proof.
  intros Hd He Hk. unfold mul, pow2_float, SFmul. cbn [xorb].
  replace (m * Pos.iter xO 1%positive 52)%positive with (Pos.iter xO m 52).
  - rewrite round_shifted by (assumption || lia). f_equal. lia.
  - rewrite Pos.mul_comm. reflexivity.
Qed.

Lemma int_value_finite m e v :
  -52 <= e <= 0 -> Z.pos m = v * 2 ^ (- e) ->
  forall k, 0 <= k ->
  int_value (S754_finite false m (e + k)) = Some (v * 2 ^ k).
Proof.
  intros He Hm k Hk. unfold int_value.
  destruct (Z.leb_spec 0 (e + k)) as [H|H].
  - f_equal. rewrite Hm, <- Z.mul_assoc, <- Z.pow_add_r by lia.
    f_equal. f_equal. lia.
  - replace (- e) with (- (e + k) + k) in Hm by lia.
    rewrite Z.pow_add_r in Hm by lia.
    assert (Hpos : 0 < 2 ^ (- (e + k))) by (apply Z.pow_pos_nonneg; lia).
    replace (Z.pos m) with (v * 2 ^ k * 2 ^ (- (e + k))) by lia.
    rewrite Z.mod_mul by lia. rewrite Z.div_mul by lia. reflexivity.
Qed.

End Binary64.

(* ================================================================== *)
(** ** [file_size]: what it returns *)

Section FileSize.

Import PyFloat.

Lemma digit_in_range c d :
  digit_value c = Some d -> in_charset (Range "0" "9") c = true /\ 0 <= d <= 9.
Proof.
  unfold digit_value, in_charset.
  change (nat_of_ascii "0") with 48%nat.
  change (nat_of_ascii "9") with 57%nat.
  destruct ((48 <=? nat_of_ascii c)%nat && (nat_of_ascii c <=? 57)%nat) eqn:H;
    [|discriminate].
  intros [= <-]. split; [reflexivity|].
  apply andb_true_iff in H. destruct H as [H1 H2].
  apply Nat.leb_le in H1, H2. lia.
Qed.

Lemma digits_all_in ds : forall acc n,
  digits_value acc ds = Some n -> all_in (Range "0" "9") ds = true.
Proof.
  induction ds as [|c ds IH]; intros acc n H; [reflexivity|].
  cbn [digits_value] in H. cbn [all_in].
  destruct (digit_value c) as [d|] eqn:Hc; [|discriminate].
  apply digit_in_range in Hc. destruct Hc as [-> _].
  exact (IH _ _ H).
Qed.

Lemma digits_value_nonneg ds : forall acc n,
  0 <= acc -> digits_value acc ds = Some n -> 0 <= n.
Proof.
  induction ds as [|c ds IH]; intros acc n Hacc H; cbn [digits_value] in H.
  - now injection H as <-.
  - destruct (digit_value c) as [d|] eqn:Hc; [|discriminate].
    apply digit_in_range in Hc. destruct Hc as [_ Hd].
    eapply IH; [|exact H]. lia.
Qed.

Lemma of_digits_value ds n :
  ds <> "" -> digits_value 0 ds = Some n -> of_digits ds = Some (of_Z n).
Proof.
  intros Hne H. unfold of_digits. rewrite H.
  destruct ds; [congruence | reflexivity].
Qed.

(** Up to [2^53] the float of an integer is that integer, and so are
    its products by 1024, 1024^2 and 1024^3. *)
Lemma scaled_exact n :
  0 <= n <= 2 ^ 53 ->
  int_value (of_Z n) = Some n
  /\ int_value (mul_int (of_Z n) 1024) = Some (n * 1024)
  /\ int_value (mul_int (of_Z n) (1024 ^ 2)) = Some (n * 1024 ^ 2)
  /\ int_value (mul_int (of_Z n) (1024 ^ 3)) = Some (n * 1024 ^ 3).
Proof.
  intros Hn.
  assert (C : n = 0 \/ n = 2 ^ 53 \/ 0 < n < 2 ^ 53) by lia.
  destruct C as [-> | [-> | C]].
  - repeat split; reflexivity.
  - repeat split; vm_compute; reflexivity.
  - destruct n as [|p|p]; try lia.
    destruct (of_Z_small p ltac:(lia)) as (m & e & Hf & Hd & He & Hm).
    unfold mul_int. rewrite of_Z_1024, of_Z_1024_2, of_Z_1024_3, Hf.
    rewrite !mul_pow2 by (assumption || lia).
    repeat split.
    + replace e with (e + 0) by lia.
      rewrite (int_value_finite m e (Z.pos p) He Hm 0) by lia.
      f_equal. lia.
    + now rewrite (int_value_finite m e (Z.pos p) He Hm 10) by lia.
    + now rewrite (int_value_finite m e (Z.pos p) He Hm 20) by lia.
    + now rewrite (int_value_finite m e (Z.pos p) He Hm 30) by lia.
Qed.

Lemma unit_multiplier_cases u k :
  unit_multiplier u = Some k ->
  (u = "B" /\ k = 1) \/ (u = "KB" /\ k = 1024)
  \/ (u = "MB" /\ k = 1024 ^ 2) \/ (u = "GB" /\ k = 1024 ^ 3).
Proof.
  unfold unit_multiplier.
  destruct (String.eqb_spec u "B"); [intros [= <-]; auto|].
  destruct (String.eqb_spec u "KB"); [intros [= <-]; auto|].
  destruct (String.eqb_spec u "MB"); [intros [= <-]; auto|].
  destruct (String.eqb_spec u "GB"); [intros [= <-]; auto 6|].
  discriminate.
Qed.

(** Whatever follows the unit is not looked at. *)
Lemma file_size_prefix ds u k n tail :
  ds <> "" -> digits_value 0 ds = Some n -> unit_multiplier u = Some k ->
  file_size (Some (ds ++ u ++ tail))
  = Return (Some (if k =? 1 then of_Z n else mul_int (of_Z n) k)).
Proof.
  intros Hne Hds Hu. unfold file_size.
  assert (Hunit : is_unit u)
    by (unfold is_unit;
        destruct (unit_multiplier_cases u k Hu) as [[-> _]|[[-> _]|[[-> _]|[-> _]]]];
        auto).
  rewrite (size_pattern_groups ds u tail Hne (digits_all_in _ _ _ Hds) Hunit).
  rewrite (of_digits_value ds n Hne Hds).
  destruct (unit_multiplier_cases u k Hu) as [[-> ->]|[[-> ->]|[[-> ->]|[-> ->]]]];
    reflexivity.
Qed.

Lemma all_in_digits ds : forall acc,
  all_in (Range "0" "9") ds = true -> exists n, digits_value acc ds = Some n.
Proof.
  induction ds as [|c ds IH]; intros acc H; cbn [all_in digits_value] in *.
  - now exists acc.
  - apply andb_true_iff in H. destruct H as [Hc Hds].
    assert (Hd : exists d, digit_value c = Some d).
    { unfold digit_value. unfold in_charset in Hc.
      change (nat_of_ascii "0") with 48%nat in Hc.
      change (nat_of_ascii "9") with 57%nat in Hc.
      rewrite Hc. eauto. }
    destruct Hd as (d & ->). apply IH, Hds.
Qed.

(** X1.  [file_size] raises [TypeError] exactly when the string does
    not begin with digits and a unit. *)
Lemma file_size_TypeError s :
  file_size (Some s) = Raise (Exn TypeError "")
  <-> ~ exists ds u tail,
          s = ds ++ u ++ tail /\ ds <> ""
          /\ all_in (Range "0" "9") ds = true /\ is_unit u.
Proof.
  split.
  - intros H (ds & u & tail & -> & Hne & Hds & Hu).
    destruct (all_in_digits ds 0 Hds) as (n & Hn).
    assert (Hk : exists k, unit_multiplier u = Some k)
      by (destruct Hu as [-> | [-> | [-> | ->]]]; cbn; eauto).
    destruct Hk as (k & Hk).
    rewrite (file_size_prefix ds u k n tail Hne Hn Hk) in H. discriminate.
  - intros H. unfold file_size.
    destruct (re_match size_pattern s) as [groups|] eqn:E; [|reflexivity].
    destruct H. eapply size_pattern_matches, E.
Qed.

(** X2.  On a string [file_size] raises [TypeError] or returns a
    float: taking the groups apart and [float] do not fail, and [None]
    is not returned. *)
Lemma file_size_returns_or_TypeError s :
  file_size (Some s) = Raise (Exn TypeError "")
  \/ exists size, file_size (Some s) = Return (Some size).
Proof.
  destruct (re_match size_pattern s) as [groups|] eqn:E.
  - right. destruct (size_pattern_matches s groups E)
      as (ds & u & tail & -> & Hne & Hds & Hu).
    destruct (all_in_digits ds 0 Hds) as (n & Hn).
    assert (Hk : exists k, unit_multiplier u = Some k)
      by (destruct Hu as [-> | [-> | [-> | ->]]]; cbn; eauto).
    destruct Hk as (k & Hk).
    rewrite (file_size_prefix ds u k n tail Hne Hn Hk). eauto.
  - left. unfold file_size. now rewrite E.
Qed.

End FileSize.

(** C1 (as amended).  For a string of digits followed by a unit, where
    the number written is at most [2^53], [file_size] returns the float
    whose value is exactly that number times the unit's multiplier
    (1, 1024, 1024^2, 1024^3 for B, KB, MB, GB). *)
Theorem file_size_digits_unit ds u k n :
  ds <> "" -> PyFloat.digits_value 0 ds = Some n ->
  unit_multiplier u = Some k -> n <= 2 ^ 53 ->
  exists size,
    file_size (Some (ds ++ u)) = Return (Some size)
    /\ PyFloat.int_value size = Some (n * k).
Proof.
  intros Hne Hds Hu Hn.
  pose proof (file_size_prefix ds u k n "" Hne Hds Hu) as H.
  replace (u ++ "") with u in H
    by (clear; induction u; cbn; congruence).
  eexists. split; [exact H|].
  assert (H0 : 0 <= n) by (eapply digits_value_nonneg; [|exact Hds]; lia).
  destruct (scaled_exact n (conj H0 Hn)) as (E1 & E2 & E3 & E4).
  destruct (unit_multiplier_cases u k Hu) as [[_ ->]|[[_ ->]|[[_ ->]|[_ ->]]]];
    cbn [Z.eqb Pos.eqb]; [rewrite E1; f_equal; lia | | | ]; assumption.
Qed.

(** [file_size("10MB") == 10 * 1024 * 1024] *)
Lemma file_size_10MB :
  exists size,
    file_size (Some "10MB") = Return (Some size)
    /\ PyFloat.int_value size = Some (10 * 1024 * 1024).
Proof.
  apply (file_size_digits_unit "10" "MB" (1024 ^ 2) 10);
    [discriminate | reflexivity | reflexivity | vm_compute; discriminate].
Defined.

(** C1 (as stated) fails on long numbers: [2^53 + 1] bytes is read as
    [2^53], the nearest float. *)
Lemma file_size_rounds :
  ~ (exists size,
       file_size (Some "9007199254740993B") = Return (Some size)
       /\ PyFloat.int_value size = Some (9007199254740993 * 1))
  /\ exists size,
       file_size (Some "9007199254740993B") = Return (Some size)
       /\ PyFloat.int_value size = Some 9007199254740992.
Proof.
  assert (E : file_size (Some "9007199254740993B")
              = Return (Some (PyFloat.of_Z 9007199254740993)))
    by (vm_compute; reflexivity).
  split.
  - intros (size & H & V). rewrite E in H. injection H as <-.
    vm_compute in V. discriminate.
  - eexists. split; [exact E | vm_compute; reflexivity].
Qed.

(** C4.  Text after the unit is accepted: "10MBps" is read as 10 MB
    where a [TypeError] is promised, and so is "10MB" followed by
    anything. *)
Theorem file_size_accepts_trailing_text :
  file_size (Some "10MBps") = Return (Some (PyFloat.of_Z (10 * 1024 * 1024)))
  /\ forall tail, file_size (Some ("10MB" ++ tail)) = file_size (Some "10MB").
Proof.
  split; [vm_compute; reflexivity|].
  intros tail.
  pose proof (file_size_prefix "10" "MB" (1024 ^ 2) 10 tail) as H.
  change ("10MB" ++ tail) with ("10" ++ "MB" ++ tail).
  rewrite H by (discriminate || reflexivity).
  vm_compute. reflexivity.
Qed.

(** C9.  [file_size(None)] returns [None]; it does not raise. *)
Theorem file_size_None : file_size None = Return None.
Proof. reflexivity. Qed.

(* ================================================================== *)
(** ** [main]: the call it makes *)

Section TheCall.

Variable wrap : string -> list string.
Variable indent : string -> string -> string.
Variable run_call : call -> outcome.

Lemma warned_silent args :
  stderr_of (warned args) = "" /\ calls_of (warned args) = [].
Proof.
  unfold warned, url_and_id.
  destruct (Namespace.id args); [now split|].
  destruct (re_match url_pattern _); now split.
Qed.

Lemma stderr_of_app a b : stderr_of (a ++ b) = stderr_of a ++ stderr_of b.
Proof.
  unfold stderr_of. rewrite flat_map_app.
  generalize (flat_map (fun ev => match ev with Stderr t => [t] | _ => [] end) a) as x.
  generalize (flat_map (fun ev => match ev with Stderr t => [t] | _ => [] end) b) as y.
  clear. intros y x. induction x as [|t x IH]; [reflexivity|].
  cbn [app String.concat]. destruct x as [|t' x].
  - cbn [app String.concat]. destruct y; cbn [String.concat append].
    + clear. induction t; cbn; congruence.
    + reflexivity.
  - cbn [app] in IH |- *. cbn [String.concat append] in IH |- *.
    rewrite IH. cbn [append].
    clear. induction t; cbn; congruence.
Qed.

Lemma calls_of_app a b : calls_of (a ++ b) = (calls_of a ++ calls_of b)%list.
Proof. apply flat_map_app. Qed.

(** [main] makes one call, the one that [the_call] builds. *)
Lemma main_calls args :
  calls_of (fst (main wrap indent run_call args)) = [the_call args].
Proof.
  unfold main. fold (warned args).
  destruct (url_and_id args) as [[w u] i] eqn:E.
  assert (Hw : calls_of w = [])
    by (pose proof (warned_silent args) as [_ H]; unfold warned in H;
        now rewrite E in H).
  destruct (run_call (the_call args)) as [|e].
  - cbn [fst]. now rewrite calls_of_app, Hw.
  - assert (Hh : calls_of (fst (handle wrap indent e)) = []).
    { unfold handle.
      repeat match goal with
             | |- context [if ?b then _ else _] => destruct b
             end; reflexivity. }
    destruct (handle wrap indent e) as [printed t]. cbn [fst] in *.
    now rewrite !calls_of_app, Hw, Hh.
Qed.

(** When the call raises, [main] is the handlers. *)
Lemma main_raised args e :
  run_call (the_call args) = Raised e ->
  stderr_of (fst (main wrap indent run_call args))
    = stderr_of (fst (handle wrap indent e))
  /\ snd (main wrap indent run_call args) = snd (handle wrap indent e).
Proof.
  intros H. unfold main. rewrite H.
  pose proof (warned_silent args) as [Hw _]. unfold warned in Hw.
  destruct (url_and_id args) as [[w u] i]. cbn [fst] in Hw.
  destruct (handle wrap indent e) as [printed t]. cbn [fst snd].
  split; [|reflexivity].
  rewrite !stderr_of_app, Hw. reflexivity.
Qed.

Lemma stderr_of_print x : stderr_of [print_stderr x] = x ++ Str.newline.
Proof. reflexivity. Qed.

End TheCall.

(* ================================================================== *)
(** ** [main]: target, destination and failures *)

Section MainClaims.

Variable wrap : string -> list string.
Variable indent : string -> string -> string.
Variable run_call : call -> outcome.

Lemma the_call_url_id args :
  (call_url (the_call args), call_id (the_call args))
  = (snd (fst (url_and_id args)), snd (url_and_id args)).
Proof.
  unfold the_call. destruct (url_and_id args) as [[w u] i].
  now destruct (Namespace.folder args).
Qed.

(** C3.  With [--id] the target goes down as the id, as it is, and no
    url; without it, a target that begins with "http://" or "https://"
    goes down as the url and no id, and any other target as the id,
    as it is. *)
Theorem main_url_or_id args :
  calls_of (fst (main wrap indent run_call args)) = [the_call args]
  /\ (call_url (the_call args), call_id (the_call args))
     = let target := Namespace.url_or_id args in
       if Namespace.id args then (None, Some target)
       else if Str.startswith target "http://"
               || Str.startswith target "https://"
       then (Some target, None)
       else (None, Some target).
Proof.
  split; [apply main_calls|].
  rewrite the_call_url_id. unfold url_and_id. cbn zeta.
  destruct (Namespace.id args); [reflexivity|].
  rewrite <- url_pattern_startswith.
  now destruct (re_match url_pattern _).
Qed.

(** C8.  An output of "-" goes down as the standard output's byte
    stream; any other output goes down as the path it is, and none
    as none. *)
Theorem main_output args :
  calls_of (fst (main wrap indent run_call args)) = [the_call args]
  /\ call_output (the_call args)
     = match Namespace.output args with
       | Some o => Some (if string_dec o "-" then StdoutBuffer else Path o)
       | None => None
       end.
Proof.
  split; [apply main_calls|].
  unfold the_call. destruct (url_and_id args) as [[w u] i].
  assert (E : output_of args
              = match Namespace.output args with
                | Some o => Some (if string_dec o "-" then StdoutBuffer else Path o)
                | None => None
                end).
  { unfold output_of. destruct (Namespace.output args) as [o|]; [|reflexivity].
    destruct (String.eqb_spec o "-"), (string_dec o "-"); congruence. }
  destruct (Namespace.folder args); exact E.
Qed.

Lemma handle_class e :
  handle wrap indent e =
  match exn_class e with
  | FileURLRetrievalError => ([print_stderr (exn_str e)], Exit 1)
  | FolderContentsMaximumLimitError =>
      ([print_stderr (folder_message wrap indent e)], Exit 1)
  | ProxyError => ([print_stderr (proxy_message wrap indent e)], Exit 1)
  | BaseException | KeyboardInterrupt | SystemExit => ([], Uncaught e)
  | _ => ([print_stderr (generic_message wrap indent e)], Exit 1)
  end.
Proof.
  unfold handle, isinstance. destruct e as [c s]. cbn [exn_class].
  destruct c; reflexivity.
Qed.

(** C7.  A [FileURLRetrievalError] is reported by its own text, as it
    is (ended by the newline of [print]). *)
Theorem main_FileURLRetrievalError args e :
  exn_class e = FileURLRetrievalError ->
  run_call (the_call args) = Raised e ->
  stderr_of (fst (main wrap indent run_call args)) = exn_str e ++ Str.newline.
Proof.
  intros Hc Hr. destruct (main_raised wrap indent run_call args e Hr) as [-> _].
  rewrite handle_class, Hc. reflexivity.
Qed.

(** C5.  A [ProxyError] has a handler of its own: the message is the
    one about the proxy settings, not the general one, then the
    process ends; the download is called once. *)
Theorem main_ProxyError args e :
  exn_class e = ProxyError ->
  run_call (the_call args) = Raised e ->
  let r := main wrap indent run_call args in
  stderr_of (fst r) = proxy_message wrap indent e ++ Str.newline
  /\ (exists text,
        proxy_message wrap indent e
        = text ++ "Please check your proxy settings.")
  /\ stderr_of (fst r) <> generic_message wrap indent e ++ Str.newline
  /\ snd r = Exit 1
  /\ calls_of (fst r) = [the_call args].
Proof.
  intros Hc Hr r. subst r.
  destruct (main_raised wrap indent run_call args e Hr) as [-> ->].
  rewrite handle_class, Hc. cbn [fst snd].
  repeat split.
  - exists ("Failed to use proxy:" ++ Str.newline ++ Str.newline
            ++ error_msg wrap indent e ++ Str.newline ++ Str.newline).
    unfold proxy_message. now rewrite !append_assoc.
  - discriminate.
  - apply main_calls.
Qed.

(** C6.  A [FolderContentsMaximumLimitError] ends the run, and the
    message names the [--remaining-ok] option; that option of the
    command line is what [download_folder] receives as
    [remaining_ok]. *)
Theorem main_FolderContentsMaximumLimitError args e :
  exn_class e = FolderContentsMaximumLimitError ->
  run_call (the_call args) = Raised e ->
  let r := main wrap indent run_call args in
  snd r = Exit 1
  /\ stderr_of (fst r) = folder_message wrap indent e ++ Str.newline
  /\ (exists text,
        folder_message wrap indent e
        = text ++ "You can use `--remaining-ok` option to ignore this error.")
  /\ (Namespace.folder args = true ->
      exists kw, the_call args = download_folder kw
                 /\ DownloadFolder.remaining_ok kw = Namespace.remaining_ok args).
Proof.
  intros Hc Hr r. subst r.
  destruct (main_raised wrap indent run_call args e Hr) as [-> ->].
  rewrite handle_class, Hc. cbn [fst snd].
  repeat split.
  - exists ("Failed to retrieve folder contents:" ++ Str.newline ++ Str.newline
            ++ error_msg wrap indent e ++ Str.newline ++ Str.newline).
    unfold folder_message. now rewrite !append_assoc.
  - intros Hf. unfold the_call. destruct (url_and_id args) as [[w u] i].
    rewrite Hf. eexists. split; reflexivity.
Qed.

(** C10 (as amended).  Every exception that the download layer raises
    and that is an instance of [Exception] is caught: [main] prints a
    message to the standard error and exits with code 1. *)
Theorem main_catches_Exception args e :
  isinstance e Exception = true ->
  run_call (the_call args) = Raised e ->
  let r := main wrap indent run_call args in
  (exists message, stderr_of (fst r) = message ++ Str.newline)
  /\ snd r = Exit 1.
Proof.
  intros Hi Hr r. subst r.
  destruct (main_raised wrap indent run_call args e Hr) as [-> ->].
  rewrite handle_class.
  destruct e as [c s]. cbn [exn_class] in *.
  destruct c; try discriminate Hi; cbn [fst snd];
    (split; [eexists; apply stderr_of_print | reflexivity]).
Qed.

End MainClaims.

(* ================================================================== *)
(** ** The three kinds of failure, side by side *)

(** C2 (as amended).  The three kinds of failure all end the process
    with exit code 1; what tells them apart is the message: the text of
    the error itself for a [FileURLRetrievalError], and two different
    messages for a [FolderContentsMaximumLimitError] and a
    [ProxyError], whatever the errors say. *)
Theorem main_failure_kinds wrap indent args run1 run2 run3 e1 e2 e3 :
  exn_class e1 = FileURLRetrievalError ->
  exn_class e2 = FolderContentsMaximumLimitError ->
  exn_class e3 = ProxyError ->
  run1 (the_call args) = Raised e1 ->
  run2 (the_call args) = Raised e2 ->
  run3 (the_call args) = Raised e3 ->
  let r1 := main wrap indent run1 args in
  let r2 := main wrap indent run2 args in
  let r3 := main wrap indent run3 args in
  (snd r1 = Exit 1 /\ snd r2 = Exit 1 /\ snd r3 = Exit 1)
  /\ stderr_of (fst r1) = exn_str e1 ++ Str.newline
  /\ stderr_of (fst r2) = folder_message wrap indent e2 ++ Str.newline
  /\ stderr_of (fst r3) = proxy_message wrap indent e3 ++ Str.newline
  /\ stderr_of (fst r2) <> stderr_of (fst r3).
Proof.
  intros C1 C2 C3 R1 R2 R3 r1 r2 r3. subst r1 r2 r3.
  destruct (main_raised wrap indent run1 args e1 R1) as [-> ->].
  destruct (main_raised wrap indent run2 args e2 R2) as [-> ->].
  destruct (main_raised wrap indent run3 args e3 R3) as [-> ->].
  rewrite !handle_class, C1, C2, C3. cbn [fst snd].
  repeat split. discriminate.
Qed.

Lemma main_failure_kinds_sample :
  let wrap := wrap_short in
  let indent := indent_line in
  let e1 := Exn FileURLRetrievalError "Too many users have viewed or downloaded this file recently." in
  let e2 := Exn FolderContentsMaximumLimitError "The folder has more than 50 files." in
  let e3 := Exn ProxyError "Cannot connect to proxy." in
  let r1 := main wrap indent (failing e1) sample_args in
  let r2 := main wrap indent (failing e2) sample_args in
  let r3 := main wrap indent (failing e3) sample_args in
  (snd r1 = Exit 1 /\ snd r2 = Exit 1 /\ snd r3 = Exit 1)
  /\ stderr_of (fst r1) = exn_str e1 ++ Str.newline
  /\ stderr_of (fst r2) = folder_message wrap indent e2 ++ Str.newline
  /\ stderr_of (fst r3) = proxy_message wrap indent e3 ++ Str.newline
  /\ stderr_of (fst r2) <> stderr_of (fst r3).
Proof.
  intros wrap indent e1 e2 e3.
  apply (main_failure_kinds wrap indent sample_args
           (failing e1) (failing e2) (failing e3) e1 e2 e3);
    reflexivity.
Defined.

(** C2 (as stated) fails: the exit codes are not three different ones. *)
Lemma exit_codes_not_distinct :
  ~ distinct_exit_codes wrap_short indent_line sample_args
      (Exn FileURLRetrievalError "Too many users have viewed or downloaded this file recently.")
      (Exn FolderContentsMaximumLimitError "The folder has more than 50 files.")
      (Exn ProxyError "Cannot connect to proxy.").
Proof. intros (H & _). apply H. reflexivity. Qed.

(** C10 (as stated) fails: [except Exception] is the last clause, and
    a [KeyboardInterrupt] raised during the download is no
    [Exception]; it leaves [main], and nothing is printed. *)
Lemma main_KeyboardInterrupt_uncaught :
  let e := Exn KeyboardInterrupt "" in
  let r := main wrap_short indent_line (failing e) sample_args in
  ~ ((exists message, stderr_of (fst r) = message ++ Str.newline)
     /\ snd r = Exit 1)
  /\ r = ([Call (the_call sample_args)], Uncaught e).
Proof.
  intros e r. split; [|reflexivity].
  intros (_ & H). discriminate H.
Qed.

(* ================================================================== *)
(** ** Examples *)

Lemma main_FileURLRetrievalError_sample :
  stderr_of (fst (main wrap_short indent_line
                    (failing (Exn FileURLRetrievalError "Quota exceeded."))
                    sample_args))
  = "Quota exceeded." ++ Str.newline.
Proof.
  apply (main_FileURLRetrievalError wrap_short indent_line
           (failing (Exn FileURLRetrievalError "Quota exceeded."))
           sample_args (Exn FileURLRetrievalError "Quota exceeded."));
    reflexivity.
Defined.

Lemma main_ProxyError_sample :
  let e := Exn ProxyError "Cannot connect to proxy." in
  let r := main wrap_short indent_line (failing e) sample_args in
  stderr_of (fst r) = proxy_message wrap_short indent_line e ++ Str.newline
  /\ (exists text,
        proxy_message wrap_short indent_line e
        = text ++ "Please check your proxy settings.")
  /\ stderr_of (fst r) <> generic_message wrap_short indent_line e ++ Str.newline
  /\ snd r = Exit 1
  /\ calls_of (fst r) = [the_call sample_args].
Proof.
  intros e.
  apply (main_ProxyError wrap_short indent_line (failing e) sample_args e);
    reflexivity.
Defined.

Lemma main_FolderContentsMaximumLimitError_sample :
  let e := Exn FolderContentsMaximumLimitError "The folder has more than 50 files." in
  let r := main wrap_short indent_line (failing e) sample_args in
  snd r = Exit 1
  /\ stderr_of (fst r) = folder_message wrap_short indent_line e ++ Str.newline
  /\ (exists text,
        folder_message wrap_short indent_line e
        = text ++ "You can use `--remaining-ok` option to ignore this error.")
  /\ (Namespace.folder sample_args = true ->
      exists kw, the_call sample_args = download_folder kw
                 /\ DownloadFolder.remaining_ok kw
                    = Namespace.remaining_ok sample_args).
Proof.
  intros e.
  apply (main_FolderContentsMaximumLimitError wrap_short indent_line
           (failing e) sample_args e);
    reflexivity.
Defined.

Lemma main_catches_Exception_sample :
  let e := Exn (OtherException "requests.exceptions.ReadTimeout") "Read timed out." in
  let r := main wrap_short indent_line (failing e) sample_args in
  (exists message, stderr_of (fst r) = message ++ Str.newline)
  /\ snd r = Exit 1.
Proof.
  intros e.
  apply (main_catches_Exception wrap_short indent_line (failing e) sample_args e);
    reflexivity.
Defined.

(* ================================================================== *)
(** ** [file_size]: which strings it takes *)

Section FileSizeInputs.

Import PyFloat.

Lemma file_size_no_match s :
  re_match size_pattern s = None ->
  file_size (Some s) = Raise (Exn TypeError "").
Proof. intros E. unfold file_size. now rewrite E. Qed.

Lemma is_unit_multiplier u :
  is_unit u -> exists k, unit_multiplier u = Some k.
Proof. intros [-> | [-> | [-> | ->]]]; cbn; eauto. Qed.

Lemma is_unit_head u tail :
  is_unit u ->
  head_in (Range "0" "9") (u ++ tail) = false
  /\ starts_with_unit (u ++ tail) = true.
Proof. intros [-> | [-> | [-> | ->]]]; split; reflexivity. Qed.

Lemma append_empty_r (s : string) : s ++ "" = s.
Proof. induction s; cbn; congruence. Qed.

(** A string splits in one way only into a run of the set's characters
    and a rest that does not begin with one. *)
Lemma run_split_unique cs a : forall b x y,
  all_in cs a = true -> all_in cs b = true ->
  head_in cs x = false -> head_in cs y = false ->
  a ++ x = b ++ y -> a = b /\ x = y.
Proof.
  induction a as [|c a IH]; intros b x y Ha Hb Hx Hy E;
    destruct b as [|d b]; cbn [append all_in] in *.
  - auto.
  - subst x. cbn [head_in] in Hx.
    apply andb_true_iff in Hb. destruct Hb as [Hd _]. congruence.
  - subst y. cbn [head_in] in Hy.
    apply andb_true_iff in Ha. destruct Ha as [Hc _]. congruence.
  - injection E as -> E.
    apply andb_true_iff in Ha, Hb. destruct Ha as [_ Ha], Hb as [_ Hb].
    destruct (IH b x y Ha Hb Hx Hy E) as [-> ->]. auto.
Qed.

(** X3.  What follows the unit is not read: digits, a unit and any
    text give what the digits and the unit give alone. *)
Theorem file_size_ignores_tail ds u tail :
  ds <> "" -> all_in (Range "0" "9") ds = true -> is_unit u ->
  file_size (Some (ds ++ u ++ tail)) = file_size (Some (ds ++ u)).
Proof.
  intros Hne Hds Hu.
  destruct (all_in_digits ds 0 Hds) as (n & Hn).
  destruct (is_unit_multiplier u Hu) as (k & Hk).
  rewrite (file_size_prefix ds u k n tail Hne Hn Hk).
  pose proof (file_size_prefix ds u k n "" Hne Hn Hk) as H.
  rewrite append_empty_r in H. now rewrite H.
Qed.

Lemma file_size_ignores_tail_sample :
  file_size (Some ("512" ++ "KB" ++ "/s")) = file_size (Some ("512" ++ "KB")).
Proof.
  apply (file_size_ignores_tail "512" "KB" "/s");
    [discriminate | reflexivity | right; right; left; reflexivity].
Defined.

(** X4.  After the leading digits (none, possibly) a unit must come at
    once: a text that goes on with anything else, or ends there, gives
    [TypeError].  So do the empty string, a number alone, a sign or a
    blank in front, a decimal point, a unit in small letters. *)
Theorem file_size_rejects ds tail :
  all_in (Range "0" "9") ds = true ->
  head_in (Range "0" "9") tail = false ->
  starts_with_unit tail = false ->
  file_size (Some (ds ++ tail)) = Raise (Exn TypeError "").
Proof.
  intros Hds Hhead Hunit.
  destruct (re_match size_pattern (ds ++ tail)) as [groups|] eqn:E;
    [|now apply file_size_no_match].
  apply size_pattern_matches in E.
  destruct E as (ds' & u & tail' & E & _ & Hds' & Hu).
  destruct (is_unit_head u tail' Hu) as [Hh Hs].
  destruct (run_split_unique _ ds ds' tail (u ++ tail') Hds Hds' Hhead Hh E)
    as [_ ->].
  congruence.
Qed.

Lemma file_size_rejects_sample :
  file_size (Some ("10" ++ "mb")) = Raise (Exn TypeError "")
  /\ file_size (Some ("" ++ "-10MB")) = Raise (Exn TypeError "")
  /\ file_size (Some ("1" ++ ".5GB")) = Raise (Exn TypeError "")
  /\ file_size (Some ("1024" ++ "")) = Raise (Exn TypeError "").
Proof.
  split; [|split; [|split]].
  - apply (file_size_rejects "10" "mb"); reflexivity.
  - apply (file_size_rejects "" "-10MB"); reflexivity.
  - apply (file_size_rejects "1" ".5GB"); reflexivity.
  - apply (file_size_rejects "1024" ""); reflexivity.
Defined.

(** X5.  Zeros in front of a number change nothing. *)
Theorem file_size_leading_zero s :
  head_in (Range "0" "9") s = true ->
  file_size (Some (String "0" s)) = file_size (Some s).
Proof.
  intros Hs.
  destruct (re_match size_pattern s) as [groups|] eqn:E.
  - apply size_pattern_matches in E.
    destruct E as (ds & u & tail & -> & Hne & Hds & Hu).
    destruct (all_in_digits ds 0 Hds) as (n & Hn).
    destruct (is_unit_multiplier u Hu) as (k & Hk).
    rewrite (file_size_prefix ds u k n tail Hne Hn Hk).
    change (String "0" (ds ++ u ++ tail)) with (String "0" ds ++ u ++ tail).
    apply file_size_prefix; [discriminate | exact Hn | exact Hk].
  - rewrite (file_size_no_match s E).
    destruct (re_match size_pattern (String "0" s)) as [groups|] eqn:E0;
      [|now apply file_size_no_match].
    apply size_pattern_matches in E0.
    destruct E0 as (ds & u & tail & E0 & Hne & Hds & Hu).
    destruct ds as [|c ds]; [congruence|].
    cbn [append all_in] in E0, Hds. injection E0 as _ ->.
    apply andb_true_iff in Hds. destruct Hds as [_ Hds].
    destruct ds as [|c' ds].
    + destruct (is_unit_head u tail Hu) as [Hh _].
      cbn [append] in Hs. congruence.
    + rewrite (size_pattern_groups (String c' ds) u tail) in E
        by (discriminate || assumption).
      discriminate.
Qed.

Lemma file_size_leading_zero_sample :
  file_size (Some (String "0" "10MB")) = file_size (Some "10MB").
Proof. apply (file_size_leading_zero "10MB"). reflexivity. Defined.

End FileSizeInputs.

(* ================================================================== *)
(** ** [file_size]: the float it returns *)

Section FileSizeValues.

Import PyFloat.

Lemma iter_pos_keeps {A} (P : A -> Prop) (f : A -> A) :
  (forall x, P x -> P (f x)) ->
  forall n x, P x -> P (iter_pos f n x).
Proof.
  intros Hf. induction n as [n IH|n IH|]; intros x Hx; cbn [iter_pos]; auto.
Qed.

Lemma shr_1_nonneg r : 0 <= shr_m r -> 0 <= shr_m (shr_1 r).
Proof.
  destruct r as [m r s]. cbn [shr_m].
  destruct m as [|[p|p|]|p]; cbn; lia.
Qed.

Lemma shr_fexp_nonneg m e l :
  0 <= m -> 0 <= shr_m (fst (shr_fexp prec emax m e l)).
Proof.
  intros Hm. unfold shr_fexp, shr.
  assert (H0 : 0 <= shr_m (shr_record_of_loc m l))
    by (destruct l as [|[]]; exact Hm).
  destruct (fexp prec emax (Zdigits2 m + e) - e); cbn [fst]; auto.
  apply (iter_pos_keeps (fun r => 0 <= shr_m r)); auto using shr_1_nonneg.
Qed.

Lemma round_nearest_even_nonneg m l : 0 <= m -> 0 <= round_nearest_even m l.
Proof.
  intros Hm. destruct l as [|[]]; cbn [round_nearest_even]; try lia.
  destruct (Z.even m); lia.
Qed.

(** Rounding a number that is not negative gives no NaN and nothing
    negative. *)
Lemma binary_round_aux_nonneg m e l :
  0 <= m -> nonneg_float (binary_round_aux prec emax false m e l) = true.
Proof.
  intros Hm. unfold binary_round_aux.
  pose proof (shr_fexp_nonneg m e l Hm) as H1.
  destruct (shr_fexp prec emax m e l) as [mrs' e']. cbn [fst] in H1.
  pose proof (shr_fexp_nonneg _ e' loc_Exact
                (round_nearest_even_nonneg _ (loc_of_shr_record mrs') H1)) as H2.
  destruct (shr_fexp prec emax _ e' loc_Exact) as [mrs'' e'']. cbn [fst] in H2.
  destruct (shr_m mrs''); [reflexivity | | lia].
  now destruct (e'' <=? emax - prec).
Qed.

Lemma of_Z_nonneg n : 0 <= n -> nonneg_float (of_Z n) = true.
Proof.
  intros Hn. unfold of_Z, binary_normalize.
  destruct n as [|p|p]; [reflexivity | | lia].
  unfold binary_round. destruct (shl_align _ _ _) as [mz ez].
  apply binary_round_aux_nonneg. lia.
Qed.

Lemma mul_pow2_nonneg x k :
  nonneg_float x = true -> nonneg_float (mul x (pow2_float k)) = true.
Proof.
  destruct x as [[]|[]| |[] m e]; cbn [nonneg_float]; try discriminate;
    intros _; try reflexivity.
  unfold mul, pow2_float, SFmul. cbn [xorb].
  apply binary_round_aux_nonneg. lia.
Qed.

(** The float that [file_size] computes from the number written and
    the multiplier of the unit. *)
Lemma scaled_nonneg n k :
  0 <= n -> k = 1 \/ k = 1024 \/ k = 1024 ^ 2 \/ k = 1024 ^ 3 ->
  nonneg_float (if k =? 1 then of_Z n else mul_int (of_Z n) k) = true.
Proof.
  intros Hn [-> | [-> | [-> | ->]]]; cbn [Z.eqb Pos.eqb Z.pow Z.pow_pos Pos.iter Z.mul Pos.mul];
    unfold mul_int;
    rewrite ?of_Z_1024;
    try (change (of_Z 1048576) with (pow2_float 20));
    try (change (of_Z 1073741824) with (pow2_float 30));
    auto using of_Z_nonneg, mul_pow2_nonneg.
Qed.

(** X6.  What [file_size] returns for a string is never a NaN and never
    negative: it is zero, a positive float or plus infinity. *)
Theorem file_size_nonneg s size :
  file_size (Some s) = Return (Some size) -> nonneg_float size = true.
Proof.
  intros H.
  destruct (re_match size_pattern s) as [groups|] eqn:E;
    [|rewrite (file_size_no_match s E) in H; discriminate].
  apply size_pattern_matches in E.
  destruct E as (ds & u & tail & -> & Hne & Hds & Hu).
  destruct (all_in_digits ds 0 Hds) as (n & Hn).
  destruct (is_unit_multiplier u Hu) as (k & Hk).
  rewrite (file_size_prefix ds u k n tail Hne Hn Hk) in H.
  injection H as <-.
  apply scaled_nonneg.
  - eapply digits_value_nonneg; [|exact Hn]. lia.
  - destruct (unit_multiplier_cases u k Hk) as [[_ ->]|[[_ ->]|[[_ ->]|[_ ->]]]];
      auto.
Qed.

Lemma file_size_nonneg_sample :
  file_size (Some "10MB")
  = Return (Some (S754_finite false 5629499534213120 (-29)))
  /\ nonneg_float (S754_finite false 5629499534213120 (-29)) = true.
Proof.
  split; [reflexivity|].
  apply (file_size_nonneg "10MB" (S754_finite false 5629499534213120 (-29))).
  reflexivity.
Defined.

(** X7.  A number that is zero, however it is written, gives the float
    zero with every unit: a limit of zero is taken, not refused. *)
Theorem file_size_zero ds u tail :
  ds <> "" -> digits_value 0 ds = Some 0 -> is_unit u ->
  file_size (Some (ds ++ u ++ tail)) = Return (Some (S754_zero false)).
Proof.
  intros Hne Hds Hu.
  destruct (is_unit_multiplier u Hu) as (k & Hk).
  rewrite (file_size_prefix ds u k 0 tail Hne Hds Hk).
  destruct (unit_multiplier_cases u k Hk) as [[_ ->]|[[_ ->]|[[_ ->]|[_ ->]]]];
    reflexivity.
Qed.

Lemma file_size_zero_sample :
  file_size (Some ("00" ++ "GB" ++ "")) = Return (Some (S754_zero false)).
Proof.
  apply (file_size_zero "00" "GB" "");
    [discriminate | reflexivity | left; reflexivity].
Defined.

Lemma shr_1_half r : 0 <= shr_m r -> shr_m (shr_1 r) = shr_m r / 2.
Proof.
  destruct r as [m r s]. cbn [shr_m].
  destruct m as [|[p|p|]|p]; cbn [shr_1 shr_m]; intros H; try lia.
  - reflexivity.
  - rewrite Pos2Z.inj_xI. apply Z.div_unique with (r := 1); lia.
  - rewrite Pos2Z.inj_xO. apply Z.div_unique with (r := 0); lia.
  - reflexivity.
Qed.

(** Shifting right [k] times divides by [2^k]. *)
Lemma iter_shr_1_div k r :
  0 <= shr_m r -> shr_m (iter_pos shr_1 k r) = shr_m r / 2 ^ Z.pos k.
Proof.
  intros Hr.
  assert (G : forall n r, 0 <= shr_m r ->
            0 <= shr_m (Nat.iter n shr_1 r)
            /\ shr_m (Nat.iter n shr_1 r) = shr_m r / 2 ^ Z.of_nat n).
  { clear. induction n as [|n IH]; intros r Hr.
    - change (Nat.iter 0 shr_1 r) with r.
      change (2 ^ Z.of_nat 0) with 1. rewrite Z.div_1_r. auto.
    - destruct (IH r Hr) as [H0 H1]. rewrite Nat.iter_succ. split.
      + now apply shr_1_nonneg.
      + rewrite shr_1_half, H1 by assumption.
        rewrite Nat2Z.inj_succ, Z.pow_succ_r by lia.
        rewrite Z.div_div by (try apply Z.pow_pos_nonneg; lia).
        f_equal. lia. }
  assert (E1 : forall A (f : A -> A) k x,
            iter_pos f k x = Nat.iter (Pos.to_nat k) f x).
  { clear. intros A f k. induction k as [k IH|k IH|]; intros x; cbn [iter_pos].
    - rewrite Pos2Nat.inj_xI, !IH.
      replace (S (2 * Pos.to_nat k))%nat
        with (Pos.to_nat k + (Pos.to_nat k + 1))%nat by lia.
      now rewrite !Nat.iter_add.
    - rewrite Pos2Nat.inj_xO, !IH.
      replace (2 * Pos.to_nat k)%nat
        with (Pos.to_nat k + Pos.to_nat k)%nat by lia.
      now rewrite Nat.iter_add.
    - reflexivity. }
  rewrite E1. destruct (G (Pos.to_nat k) r Hr) as [_ ->].
  now rewrite positive_nat_Z.
Qed.

Lemma digits2_pos_53 m :
  2 ^ 52 <= Z.pos m < 2 ^ 53 -> Z.pos (digits2_pos m) = 53.
Proof.
  intros [Hlo Hhi]. destruct (digits2_pos_bounds m) as [Blo Bhi].
  assert (Z.pos (digits2_pos m) <= 53) by (apply digits2_pos_le; lia).
  destruct (Z.le_gt_cases 53 (Z.pos (digits2_pos m))) as [|Hlt]; [lia|].
  assert (2 ^ Z.pos (digits2_pos m) <= 2 ^ 52)
    by (apply Z.pow_le_mono_r; lia).
  lia.
Qed.

(** From [2^1024] on, the float of an integer is plus infinity. *)
Lemma of_Z_overflow n : 2 ^ 1024 <= n -> of_Z n = S754_infinity false.
Proof.
  intros Hn.
  assert (P1024 : 0 < 2 ^ 1024) by (apply Z.pow_pos_nonneg; lia).
  destruct n as [|p|p]; try lia.
  destruct (digits2_pos_bounds p) as [Blo Bhi].
  set (d := Z.pos (digits2_pos p)) in *.
  assert (Hd : 1025 <= d).
  { destruct (Z.le_gt_cases 1025 d) as [|Hlt]; [assumption|].
    assert (2 ^ d <= 2 ^ 1024) by (apply Z.pow_le_mono_r; lia). lia. }
  unfold of_Z, binary_normalize, binary_round.
  assert (Hfexp : fexp prec emax (d + 0) = d - 53)
    by (unfold fexp, emin, prec, emax; lia).
  fold d. rewrite Hfexp.
  assert (Hal : shl_align p 0 (d - 53) = (p, 0)).
  { unfold shl_align. destruct (d - 53 - 0) eqn:E; try reflexivity. lia. }
  rewrite Hal.
  destruct (d - 53) as [|k|k] eqn:Ek; try lia.
  (* the mantissa after the first shift *)
  set (r0 := Build_shr_record (Z.pos p) false false).
  assert (Hshr : shr_fexp prec emax (Z.pos p) 0 loc_Exact
                 = (iter_pos shr_1 k r0, Z.pos k)).
  { unfold shr_fexp. cbn [Zdigits2 shr_record_of_loc]. fold d.
    rewrite Hfexp. rewrite Z.sub_0_r. reflexivity. }
  assert (Hm : 2 ^ 52 <= shr_m (iter_pos shr_1 k r0) < 2 ^ 53).
  { rewrite iter_shr_1_div by (cbn; lia). cbn [shr_m r0].
    assert (Pk : 0 < 2 ^ Z.pos k) by (apply Z.pow_pos_nonneg; lia).
    assert (E1 : 2 ^ (d - 1) = 2 ^ 52 * 2 ^ Z.pos k)
      by (rewrite <- Z.pow_add_r by lia; f_equal; lia).
    assert (E2 : 2 ^ d = 2 ^ 53 * 2 ^ Z.pos k)
      by (rewrite <- Z.pow_add_r by lia; f_equal; lia).
    split.
    - apply Z.div_le_lower_bound; lia.
    - apply Z.div_lt_upper_bound; lia. }
  unfold binary_round_aux. rewrite Hshr.
  set (mrs := iter_pos shr_1 k r0) in *.
  set (m1 := round_nearest_even (shr_m mrs) (loc_of_shr_record mrs)).
  assert (Hm1 : 2 ^ 52 <= m1 < 2 ^ 53 \/ m1 = 2 ^ 53).
  { subst m1. destruct (loc_of_shr_record mrs) as [|[]];
      cbn [round_nearest_even]; try destruct (Z.even (shr_m mrs)); lia. }
  destruct Hm1 as [Hm1 | Hm1].
  - destruct m1 as [|q|q] eqn:Eq; try lia.
    assert (Hq : Z.pos (digits2_pos q) = 53) by now apply digits2_pos_53.
    assert (H2 : shr_fexp prec emax (Z.pos q) (Z.pos k) loc_Exact
                 = (Build_shr_record (Z.pos q) false false, Z.pos k)).
    { unfold shr_fexp, fexp, emin, prec, emax.
      cbn [Zdigits2 shr_record_of_loc]. rewrite Hq.
      replace (Z.max (53 + Z.pos k - 53) (3 - 1024 - 53) - Z.pos k)
        with 0 by lia.
      reflexivity. }
    rewrite H2. cbn [shr_m]. unfold prec, emax.
    destruct (Z.leb_spec (Z.pos k) (1024 - 53)); [lia | reflexivity].
  - rewrite Hm1.
    assert (H2 : shr_fexp prec emax (2 ^ 53) (Z.pos k) loc_Exact
                 = (Build_shr_record (2 ^ 52) false false, Z.pos k + 1)).
    { unfold shr_fexp, fexp, emin, prec, emax.
      change (Zdigits2 (2 ^ 53)) with 54.
      replace (Z.max (54 + Z.pos k - 53) (3 - 1024 - 53) - Z.pos k)
        with 1 by lia.
      reflexivity. }
    rewrite H2. cbn [shr_m]. unfold prec, emax.
    change (2 ^ 52) with (Z.pos (Pos.iter xO 1%positive 52)).
    cbv iota beta.
    destruct (Z.leb_spec (Z.pos k + 1) (1024 - 53)); [lia | reflexivity].
Qed.

(** X8.  A number of [2^1024] or more overflows without an error: the
    result is plus infinity, with every unit. *)
Theorem file_size_overflow ds u tail n :
  ds <> "" -> digits_value 0 ds = Some n -> is_unit u -> 2 ^ 1024 <= n ->
  file_size (Some (ds ++ u ++ tail)) = Return (Some (S754_infinity false)).
Proof.
  intros Hne Hds Hu Hn.
  destruct (is_unit_multiplier u Hu) as (k & Hk).
  rewrite (file_size_prefix ds u k n tail Hne Hds Hk).
  unfold mul_int. rewrite (of_Z_overflow n Hn).
  destruct (unit_multiplier_cases u k Hk) as [[_ ->]|[[_ ->]|[[_ ->]|[_ ->]]]];
    reflexivity.
Qed.

Lemma file_size_overflow_sample :
  file_size (Some (String "1" (zeros 309) ++ "MB" ++ ""))
  = Return (Some (S754_infinity false)).
Proof.
  apply (file_size_overflow (String "1" (zeros 309)) "MB" "" (10 ^ 309));
    [discriminate | vm_compute; reflexivity | right; left; reflexivity
     | vm_compute; discriminate].
Defined.

End FileSizeValues.

(* ================================================================== *)
(** ** [main]: how a run goes *)

Section MainRuns.

Variable wrap : string -> list string.
Variable indent : string -> string -> string.

Lemma main_returned run_call args :
  run_call (the_call args) = Returned ->
  main wrap indent run_call args
  = ((warned args ++ [Call (the_call args)])%list, Returns).
Proof.
  intros H. unfold main, warned. rewrite H.
  now destruct (url_and_id args) as [[w u] i].
Qed.

Lemma main_raised_events run_call args e :
  run_call (the_call args) = Raised e ->
  main wrap indent run_call args
  = ((warned args ++ [Call (the_call args)] ++ fst (handle wrap indent e))%list,
     snd (handle wrap indent e)).
Proof.
  intros H. unfold main, warned. rewrite H.
  destruct (url_and_id args) as [[w u] i].
  now destruct (handle wrap indent e).
Qed.

Lemma warned_id args :
  warned args
  = if Namespace.id args then [Warn "FutureWarning" id_deprecation] else [].
Proof.
  unfold warned, url_and_id. destruct (Namespace.id args); [reflexivity|].
  now destruct (re_match url_pattern _).
Qed.

Lemma handle_Exception e :
  handle wrap indent e
  = if isinstance e Exception
    then ([print_stderr
             (match exn_class e with
              | FileURLRetrievalError => exn_str e
              | FolderContentsMaximumLimitError => folder_message wrap indent e
              | ProxyError => proxy_message wrap indent e
              | _ => generic_message wrap indent e
              end)], Exit 1)
    else ([], Uncaught e).
Proof.
  rewrite handle_class. destruct e as [c s]. now destruct c.
Qed.


(** X9.  How [main] ends is decided by how the call ends: it returns
    when the call returns, exits with code 1 when the call raises an
    [Exception], and lets any other exception through. *)
Theorem main_termination run_call args :
  snd (main wrap indent run_call args)
  = match run_call (the_call args) with
    | Returned => Returns
    | Raised e => if isinstance e Exception then Exit 1 else Uncaught e
    end.
Proof.
  destruct (run_call (the_call args)) as [|e] eqn:H.
  - now rewrite (main_returned run_call args H).
  - rewrite (main_raised_events run_call args e H), handle_Exception.
    now destruct (isinstance e Exception).
Qed.

(** X10.  The warning about [--id] is issued exactly when [--id] is
    given, whatever the target looks like, and before the call; after
    the call [main] only prints. *)
Theorem main_events run_call args :
  exists printed,
    fst (main wrap indent run_call args)
    = ((if Namespace.id args
        then [Warn "FutureWarning" id_deprecation] else [])
       ++ Call (the_call args) :: printed)%list
    /\ forall ev, In ev printed -> exists text, ev = Stderr text.
Proof.
  destruct (run_call (the_call args)) as [|e] eqn:H.
  - exists []. rewrite (main_returned run_call args H), warned_id.
    split; [reflexivity | intros ev []].
  - exists (fst (handle wrap indent e)).
    rewrite (main_raised_events run_call args e H), warned_id.
    split; [reflexivity|].
    rewrite handle_Exception.
    destruct (isinstance e Exception); cbn [fst]; intros ev Hin.
    + destruct Hin as [<-|[]]. unfold print_stderr. eauto.
    + destruct Hin.
Qed.



(** X13.  With [--folder], [--fuzzy] and [--format] change nothing:
    [download_folder] is not given them. *)
Theorem main_folder_ignores_fuzzy_format run_call args fuzzy format :
  Namespace.folder args = true ->
  main wrap indent run_call (with_fuzzy_format fuzzy format args)
  = main wrap indent run_call args.
Proof.
  intros Hf.
  assert (Hc : the_call (with_fuzzy_format fuzzy format args) = the_call args).
  { unfold the_call, url_and_id, output_of, with_fuzzy_format.
    cbn [Namespace.id Namespace.url_or_id Namespace.folder Namespace.output
         Namespace.quiet Namespace.proxy Namespace.speed Namespace.no_cookies
         Namespace.no_check_certificate Namespace.remaining_ok
         Namespace.user_agent Namespace.continue_].
    now rewrite Hf. }
  unfold main. rewrite Hc. reflexivity.
Qed.

(** X14.  Without [--folder], [--remaining-ok] changes nothing:
    [download] is not given it. *)
Theorem main_file_ignores_remaining_ok run_call args remaining_ok :
  Namespace.folder args = false ->
  main wrap indent run_call (with_remaining_ok remaining_ok args)
  = main wrap indent run_call args.
Proof.
  intros Hf.
  assert (Hc : the_call (with_remaining_ok remaining_ok args) = the_call args).
  { unfold the_call, url_and_id, output_of, with_remaining_ok.
    cbn [Namespace.id Namespace.url_or_id Namespace.folder Namespace.output
         Namespace.quiet Namespace.proxy Namespace.speed Namespace.no_cookies
         Namespace.no_check_certificate Namespace.fuzzy Namespace.format
         Namespace.user_agent Namespace.continue_].
    now rewrite Hf. }
  unfold main. rewrite Hc. reflexivity.
Qed.

(** X15.  An [Exception] that is none of the three kinds with a handler
    of their own gets the general message, which ends with the address
    for reports; so does a [ConnectionError], of which [ProxyError] is
    a case. *)
Theorem main_other_Exception run_call args e :
  isinstance e Exception = true ->
  isinstance e FileURLRetrievalError = false ->
  isinstance e FolderContentsMaximumLimitError = false ->
  isinstance e ProxyError = false ->
  run_call (the_call args) = Raised e ->
  stderr_of (fst (main wrap indent run_call args))
  = generic_message wrap indent e ++ Str.newline
  /\ (exists text,
        generic_message wrap indent e
        = text ++ "To report issues, please visit https://github.com/wkentaro/gdown/issues.")
  /\ snd (main wrap indent run_call args) = Exit 1.
Proof.
  intros He H1 H2 H3 H.
  pose proof (warned_silent args) as [Hw _].
  rewrite (main_raised_events run_call args e H).
  unfold handle. rewrite H1, H2, H3, He. cbn [fst snd].
  rewrite !stderr_of_app, Hw. repeat split.
  exists ("Error:" ++ Str.newline ++ Str.newline
          ++ error_msg wrap indent e ++ Str.newline ++ Str.newline).
  unfold generic_message. now rewrite !append_assoc.
Qed.

End MainRuns.


Lemma main_folder_ignores_fuzzy_format_sample :
  main wrap_short indent_line (fun _ => Returned)
       (with_fuzzy_format true (Some "pdf") sample_args)
  = main wrap_short indent_line (fun _ => Returned) sample_args.
Proof.
  apply (main_folder_ignores_fuzzy_format wrap_short indent_line
           (fun _ => Returned) sample_args true (Some "pdf")).
  reflexivity.
Defined.

Lemma main_file_ignores_remaining_ok_sample :
  main wrap_short indent_line (fun _ => Returned)
       (with_remaining_ok true sample_file_args)
  = main wrap_short indent_line (fun _ => Returned) sample_file_args.
Proof.
  apply (main_file_ignores_remaining_ok wrap_short indent_line
           (fun _ => Returned) sample_file_args true).
  reflexivity.
Defined.

Lemma main_other_Exception_sample :
  let e := Exn ConnectionError "Connection refused." in
  let r := main wrap_short indent_line (failing e) sample_args in
  stderr_of (fst r) = generic_message wrap_short indent_line e ++ Str.newline
  /\ (exists text,
        generic_message wrap_short indent_line e
        = text ++ "To report issues, please visit https://github.com/wkentaro/gdown/issues.")
  /\ snd r = Exit 1.
Proof.
  intros e.
  apply (main_other_Exception wrap_short indent_line (failing e) sample_args e);
    reflexivity.
Defined.

(* ================================================================== *)
(** ** [_ShowVersionAction]: the directory shown *)

Section ShowVersion.

Import PosixPath.

Lemma rfind_no_sep name : no_sep name = true -> rfind_sep_succ name = 0%nat.
Proof.
  induction name as [|c name IH]; [reflexivity|]. cbn [no_sep rfind_sep_succ].
  intros H. apply andb_true_iff in H. destruct H as [Hc Hn].
  rewrite (IH Hn). now destruct (is_sep c).
Qed.

(** The last slash of [root/name] is the one before [name]. *)
Lemma rfind_sep_succ_join root name :
  no_sep name = true ->
  rfind_sep_succ (root ++ "/" ++ name) = S (String.length root).
Proof.
  intros Hn. induction root as [|c root IH];
    cbn [append rfind_sep_succ String.length] in *.
  - now rewrite (rfind_no_sep name Hn).
  - now rewrite IH.
Qed.

Lemma take_join root name :
  Str.take (S (String.length root)) (root ++ "/" ++ name) = root ++ "/".
Proof.
  induction root as [|c root IH]; cbn [append String.length Str.take].
  - now destruct name.
  - f_equal. exact IH.
Qed.

Lemma all_sep_root root x :
  root <> "" -> ends_with_sep root = false -> all_sep (root ++ x) = false.
Proof.
  induction root as [|c root IH]; [congruence|]. intros _ He.
  cbn [append all_sep]. destruct root as [|c' root].
  - cbn [ends_with_sep] in He. now rewrite He.
  - rewrite (IH ltac:(discriminate) He). apply andb_false_r.
Qed.

Lemma rstrip_sep_root root :
  root <> "" -> ends_with_sep root = false -> rstrip_sep (root ++ "/") = root.
Proof.
  induction root as [|c root IH]; [congruence|]. intros _ He.
  cbn [append rstrip_sep]. destruct root as [|c' root].
  - cbn [ends_with_sep] in He. cbn [append rstrip_sep is_sep Ascii.eqb].
    change (rstrip_sep "/") with "". now rewrite He.
  - now rewrite (IH ltac:(discriminate) He).
Qed.

(** [dirname] of [root/name] is [root], when [root] is a path that
    does not end with a slash. *)
Lemma dirname_join root name :
  root <> "" -> ends_with_sep root = false -> no_sep name = true ->
  dirname (root ++ "/" ++ name) = root.
Proof.
  intros Hr He Hn. unfold dirname.
  rewrite (rfind_sep_succ_join root name Hn), take_join.
  rewrite (all_sep_root root "/" Hr He), (rstrip_sep_root root Hr He).
  destruct root; [congruence | reflexivity].
Qed.

Lemma ends_with_sep_name x name :
  name <> "" -> no_sep name = true -> ends_with_sep (x ++ name) = false.
Proof.
  intros Hne Hn. induction x as [|c x IH].
  - cbn [append]. induction name as [|d name IHn]; [congruence|].
    cbn [no_sep] in Hn. apply andb_true_iff in Hn. destruct Hn as [Hd Hn].
    destruct name as [|d' name].
    + cbn [ends_with_sep]. now destruct (is_sep d).
    + apply IHn; [discriminate | assumption].
  - cbn [append ends_with_sep].
    destruct (x ++ name) eqn:E; [|exact IH].
    destruct x; [cbn in E; congruence | discriminate].
Qed.

(** X16.  The version line names the directory that holds the package:
    for a module [root/package/file], with [root] a path that does not
    end with a slash, it is ["gdown <version> at <root>"]; then the
    process ends with status 0. *)
Theorem show_version_root version root package file :
  root <> "" -> ends_with_sep root = false ->
  package <> "" -> no_sep package = true -> no_sep file = true ->
  show_version version (root ++ "/" ++ package ++ "/" ++ file)
  = ("gdown " ++ version ++ " at " ++ root ++ Str.newline, Exit 0).
Proof.
  intros Hr He Hp Hnp Hnf. unfold show_version.
  replace (root ++ "/" ++ package ++ "/" ++ file)
    with ((root ++ "/" ++ package) ++ "/" ++ file)
    by (now rewrite !append_assoc).
  rewrite (dirname_join (root ++ "/" ++ package) file).
  - now rewrite (dirname_join root package Hr He Hnp).
  - destruct root; [congruence | discriminate].
  - replace (root ++ "/" ++ package) with ((root ++ "/") ++ package)
      by (now rewrite append_assoc).
    now apply ends_with_sep_name.
  - exact Hnf.
Qed.

Lemma show_version_root_sample :
  show_version "5.2.0"
    ("/usr/lib/python3/site-packages" ++ "/" ++ "gdown" ++ "/" ++ "__main__.py")
  = ("gdown 5.2.0 at /usr/lib/python3/site-packages" ++ Str.newline, Exit 0).
Proof.
  apply (show_version_root "5.2.0" "/usr/lib/python3/site-packages"
           "gdown" "__main__.py");
    (discriminate || reflexivity).
Defined.

End ShowVersion.
